(** * Cross-exchange arbitrage pipeline: a shallow embedding

    The development follows the four analytical stages of the repository:

    - [OrderbookHdf]            src/data-collection/orderbook_hdf.py
    - [ProcessData]             src/backtesting/process_data.py
    - [ProfitabilityCalculator] src/backtesting/profitability_calculator.py
    - [ArbitrageBacktester]     src/backtesting/arbitrage_backtester.py

    Numbers.  Timestamps are integers (milliseconds) and are modelled in [Z].
    Prices, volumes, fees and profits are floating point in the source; they
    are modelled by exact rationals [Q], so every statement below is about the
    arithmetic the code asks for, not about rounding error.

    Effects.  Python exceptions are values of [exn]; a computation returns
    [result A].  Loops whose termination is not structural run on fuel and
    return [OutOfFuel] when it runs out; each such loop comes with a lemma that
    the fuel supplied by its caller is enough. *)

From Stdlib Require Import ZArith QArith Qabs List String Ascii Bool Lia Arith.
From Stdlib Require Import Sorted.
Import ListNotations.

Local Open Scope Z_scope.

(* ------------------------------------------------------------------ *)
(** ** Exceptions and the result monad *)

Inductive exn : Type :=
| NameError
| KeyError
| IndexError
| TypeError
| ValueError
| ZeroDivisionError.

Inductive result (A : Type) : Type :=
| Ok (a : A)
| Raise (e : exn)
| OutOfFuel.

Arguments Ok {A} a.
Arguments Raise {A} e.
Arguments OutOfFuel {A}.

Definition bind {A B : Type} (m : result A) (k : A -> result B) : result B :=
  match m with
  | Ok a => k a
  | Raise e => Raise e
  | OutOfFuel => OutOfFuel
  end.

Notation "x <- m ;; k" := (bind m (fun x => k))
  (at level 61, m at next level, right associativity).
Notation "' p <- m ;; k" := (bind m (fun p => k))
  (at level 61, p pattern, m at next level, right associativity).

(** [o] or else raise [e]: a lookup that fails with a given exception. *)
Definition or_raise {A : Type} (e : exn) (o : option A) : result A :=
  match o with
  | Some a => Ok a
  | None => Raise e
  end.

(* ------------------------------------------------------------------ *)
(** ** Python primitives used by the four modules *)

(** Rational comparisons as booleans. *)
Definition Qltb (x y : Q) : bool := negb (Qle_bool y x).
Definition Qgtb (x y : Q) : bool := Qltb y x.

(** Python's two-argument [min(a, b)]: [b] when [b < a], otherwise [a]. *)
Definition py_min (a b : Q) : Q := if Qltb b a then b else a.

(** Truthiness of a number: [if x] holds when [x] is not zero. *)
Definition truthy (x : Q) : bool := negb (Qeq_bool x 0).

(** [sum(...)] over a generator of numbers, starting from 0. *)
Definition py_sum (l : list Q) : Q := fold_left Qplus l 0%Q.

(** Rounding to the nearest integer, halves to the even neighbour: what
    [round(n / d)] returns for integers [n] and [d > 0]. *)
Definition round_half_even_div (n d : Z) : Z :=
  let q := n / d in
  let r := n mod d in
  if 2 * r <? d then q
  else if d <? 2 * r then q + 1
  else if Z.even q then q else q + 1.

(** The same rounding on a rational. *)
Definition round_half_even (x : Q) : Z :=
  round_half_even_div (Qnum x) (Z.pos (Qden x)).

(** [round(x, ndigits)]: scale by [10^ndigits], round, scale back. *)
Definition py_round (x : Q) (ndigits : Z) : Q :=
  if 0 <=? ndigits
  then inject_Z (round_half_even (x * inject_Z (10 ^ ndigits)))
       / inject_Z (10 ^ ndigits)
  else inject_Z (round_half_even (x / inject_Z (10 ^ (- ndigits)))
                 * 10 ^ (- ndigits)).

(** [s.split(sep)] for a one-character separator. *)
Fixpoint split (sep : ascii) (s : string) : list string :=
  match s with
  | EmptyString => [EmptyString]
  | String c s' =>
      if Ascii.eqb c sep then EmptyString :: split sep s'
      else match split sep s' with
           | [] => [String c EmptyString]
           | w :: ws => String c w :: ws
           end
  end.

(** [d[k]] on a dictionary kept as an association list. *)
Fixpoint lookup {V : Type} (k : string) (d : list (string * V)) : option V :=
  match d with
  | [] => None
  | (k', v) :: d' => if String.eqb k k' then Some v else lookup k d'
  end.

(** [sep.join(l)] *)
Fixpoint join (sep : string) (l : list string) : string :=
  match l with
  | [] => EmptyString
  | x :: l' =>
      match l' with
      | [] => x
      | _ :: _ => (x ++ sep ++ join sep l')%string
      end
  end.

(** [sub in s] on strings. *)
Fixpoint contains (sub s : string) : bool :=
  if String.prefix sub s then true
  else match s with
       | EmptyString => false
       | String _ s' => contains sub s'
       end.

(** [itertools.combinations(l, 2)], in the order the iterator yields. *)
Fixpoint combinations2 {A : Type} (l : list A) : list (A * A) :=
  match l with
  | [] => []
  | x :: l' => map (pair x) l' ++ combinations2 l'
  end.

(** [d.setdefault(k, []).append(v)] on a dictionary of lists; a new key
    goes to the end, as in a Python dictionary. *)
Fixpoint setdefault_append (k v : string) (d : list (string * list string))
  : list (string * list string) :=
  match d with
  | [] => [(k, [v])]
  | (k', vs) :: d' =>
      if String.eqb k k' then (k', vs ++ [v]) :: d'
      else (k', vs) :: setdefault_append k v d'
  end.

(** [s.split(sub)[0]]: the part of [s] before the first occurrence of
    [sub], all of [s] when there is none. *)
Fixpoint before_first (sub s : string) : string :=
  if String.prefix sub s then EmptyString
  else match s with
       | EmptyString => EmptyString
       | String c s' => String c (before_first sub s')
       end.

(** [s.replace(old, new)] for one-character [old] and [new]. *)
Fixpoint replace_char (old new : ascii) (s : string) : string :=
  match s with
  | EmptyString => EmptyString
  | String c s' =>
      String (if Ascii.eqb c old then new else c) (replace_char old new s')
  end.

(* ------------------------------------------------------------------ *)
(** ** Snapshot Aggregator: orderbook_hdf.py *)

Module OrderbookHdf.

(** One level of the book: [order[0]] is the price, [order[1]] the volume. *)
Definition order : Type := (Q * Q)%type.

Record orderbook : Type := {
  bids : list order;
  asks : list order
}.

Record precision : Type := {
  amount : Z;
  price : Z
}.

(** The one-row frame built by [calculate_weighted_prices]. *)
Record orderbook_row : Type := {
  timestamp : Z;
  bid_price : Q;
  bid_volume : Q;
  ask_price : Q;
  ask_volume : Q
}.

Definition calculate_volume_and_weighted_price (orders : list order) : Q * Q :=
  let volume := py_sum (map snd orders) in
  let weighted_price :=
    if truthy volume
    then (py_sum (map (fun o => fst o * snd o) orders) / volume)%Q
    else 0%Q in
  (volume, weighted_price).

Definition calculate_weighted_prices
    (ob : orderbook) (p : precision) (ts : Z) : orderbook_row :=
  let '(bid_volume, bid_weighted_price) :=
    calculate_volume_and_weighted_price (firstn 3 (bids ob)) in
  let '(ask_volume, ask_weighted_price) :=
    calculate_volume_and_weighted_price (firstn 3 (asks ob)) in
  {| timestamp := ts;
     bid_price := py_round bid_weighted_price (price p);
     bid_volume := py_round bid_volume (amount p);
     ask_price := py_round ask_weighted_price (price p);
     ask_volume := py_round ask_volume (amount p) |}.

(** What [fetch_orders_safely] returns: an order book, or the stand-in
    [{"asks": False, "bids": False}]. *)
Inductive fetched : Type :=
| Book (ob : orderbook)
| NoBook.

Section Fetch.
(** [exchange_object.fetch_l2_order_book(symbol, 5)] at a given attempt:
    the book, or the exception the [except Exception] clause catches. *)
Variable fetch_l2_order_book : nat -> result orderbook.

(** [fetch_orders_safely], with the seconds spent in [time.sleep]. *)
Fixpoint fetch_orders_safely_from (fuel attempt : nat)
  : result (fetched * nat) :=
  if (attempt <? 5)%nat
  then
    match fetch_l2_order_book attempt with
    | Ok ob => Ok (Book ob, 0%nat)
    | _ =>
        match fuel with
        | O => OutOfFuel
        | S fuel' =>
            '(book, slept) <- fetch_orders_safely_from fuel' (attempt + 1) ;;
            Ok (book, (5 + slept)%nat)
        end
    end
  else Ok (NoBook, 0%nat).

(** The recursion stops at attempt 5, so five turns are enough. *)
Definition fetch_orders_safely (attempt : nat) : result (fetched * nat) :=
  fetch_orders_safely_from 5 attempt.
End Fetch.

End OrderbookHdf.

(* ------------------------------------------------------------------ *)
(** ** Rows of the snapshot frames *)

(** A row of a per-exchange snapshot frame, as [df.iloc[i]] hands it out:
    the five columns and the row's [name]. *)
Module Series.
Record t : Type := {
  name : string;
  timestamp : Z;
  ask_price : Q;
  ask_volume : Q;
  bid_price : Q;
  bid_volume : Q
}.
End Series.

(* ------------------------------------------------------------------ *)
(** ** Stream Synchronizer: process_data.py *)

Module ProcessData.

Record SynchronizedDataSelector : Type := {
  df1 : list Series.t;
  df2 : list Series.t;
  tolerance : Z;
  index1 : nat;
  index2 : nat;
  finished : bool
}.

(** [SynchronizedDataSelector.__init__] *)
Definition init (d1 d2 : list Series.t) (tolerance_ms : Z)
  : SynchronizedDataSelector :=
  {| df1 := d1; df2 := d2; tolerance := tolerance_ms;
     index1 := 0; index2 := 0; finished := false |}.

Definition default_tolerance_ms : Z := 60000.

(** [df.iloc[i]] for [i >= 0]: out of range raises IndexError. *)
Definition iloc (df : list Series.t) (i : nat) : result Series.t :=
  or_raise IndexError (nth_error df i).

Definition _is_last_row (index : nat) (df : list Series.t) : bool :=
  (List.length df <=? index + 1)%nat.

Definition _advance_index_with_greater_timestamp
    (s : SynchronizedDataSelector) (row1 row2 : Series.t)
  : SynchronizedDataSelector :=
  if Series.timestamp row2 <? Series.timestamp row1
  then {| df1 := df1 s; df2 := df2 s; tolerance := tolerance s;
          index1 := index1 s; index2 := S (index2 s);
          finished := finished s |}
  else {| df1 := df1 s; df2 := df2 s; tolerance := tolerance s;
          index1 := S (index1 s); index2 := index2 s;
          finished := finished s |}.

(** What a call of [get_next_row_pair] hands back: the tuple
    [(row1, row2)], the tuple [(None, None)], or, when the loop is never
    entered, the bare [None] of a function that falls off its end. *)
Definition returned : Type := option (option Series.t * option Series.t).

(** The [while not self.finished] loop of [get_next_row_pair]. *)
Fixpoint get_next_row_pair_loop (fuel : nat) (s : SynchronizedDataSelector)
  : result (returned * SynchronizedDataSelector) :=
  if finished s then Ok (None, s)
  else
    match fuel with
    | O => OutOfFuel
    | S fuel' =>
        row1_now <- iloc (df1 s) (index1 s) ;;
        row2_now <- iloc (df2 s) (index2 s) ;;
        if _is_last_row (index1 s) (df1 s) || _is_last_row (index2 s) (df2 s)
        then Ok (Some (None, None),
                 {| df1 := df1 s; df2 := df2 s; tolerance := tolerance s;
                    index1 := index1 s; index2 := index2 s;
                    finished := true |})
        else
          let time_diff :=
            Z.abs (Series.timestamp row1_now - Series.timestamp row2_now) in
          if time_diff <? tolerance s
          then Ok (Some (Some row1_now, Some row2_now),
                   {| df1 := df1 s; df2 := df2 s; tolerance := tolerance s;
                      index1 := S (index1 s); index2 := S (index2 s);
                      finished := finished s |})
          else get_next_row_pair_loop fuel'
                 (_advance_index_with_greater_timestamp s row1_now row2_now)
    end.

(** Every turn of the loop that does not return moves one index forward,
    so the two lengths together bound the number of turns after the
    first. *)
Definition get_next_row_pair (s : SynchronizedDataSelector)
  : result (returned * SynchronizedDataSelector) :=
  get_next_row_pair_loop (S (List.length (df1 s) + List.length (df2 s))) s.

Section Refine.
(** [arbitrage_calculator.compare_arbitrage_profitability] with the two
    exchange objects already supplied: the consumer of each pair. *)
Context {R : Type} (compare : Series.t -> Series.t -> result R).

(** The [while not selector.finished] loop of [refine_results]. *)
Fixpoint refine_loop (fuel : nat) (selector : SynchronizedDataSelector)
    (refined_data : list R) : result (list R) :=
  if finished selector then Ok refined_data
  else
    match fuel with
    | O => OutOfFuel
    | S fuel' =>
        '(ret, selector') <- get_next_row_pair selector ;;
        match ret with
        | None => Raise TypeError
        | Some (Some row1, Some row2) =>
            res <- compare row1 row2 ;;
            refine_loop fuel' selector' (refined_data ++ [res])
        | Some _ => Ok refined_data
        end
    end.

(** [refine_results] up to the frame it hands to [save_df_to_csv];
    naming the frame and writing the file are left out. *)
Definition refine_results_with (tolerance_ms : Z) (d1 d2 : list Series.t)
  : result (list R) :=
  refine_loop (S (Nat.min (List.length d1) (List.length d2)))
              (init d1 d2 tolerance_ms) [].

Definition refine_results (d1 d2 : list Series.t) : result (list R) :=
  refine_results_with default_tolerance_ms d1 d2.
End Refine.

(** The Stream Synchronizer on its own: the pairs that reach the consumer. *)
Definition aligned_pairs (tolerance_ms : Z) (d1 d2 : list Series.t)
  : result (list (Series.t * Series.t)) :=
  refine_results_with (fun row1 row2 => Ok (row1, row2)) tolerance_ms d1 d2.

(** [generate_final_dataframe_name], on the [name] attributes of the two
    frames. *)
Definition generate_final_dataframe_name (name1 name2 : string)
  : result string :=
  first <- or_raise IndexError (nth_error (split "_" name1) 0) ;;
  let symbol := join "_" (split "/" first) in
  exchange1 <- or_raise IndexError (nth_error (split "_" name1) 1) ;;
  exchange2 <- or_raise IndexError (nth_error (split "_" name2) 1) ;;
  Ok (join "_" [symbol; exchange1; exchange2]).

(** [get_symbols_and_filenames], on the listing [os.listdir] returns. *)
Definition get_symbols_and_filenames (listing : list string)
  : list (string * list string) :=
  let files := filter (fun f => negb (contains "orderbook" f)) listing in
  fold_left
    (fun symbols_and_filenames file =>
       let symbol := join "/" (firstn 2 (split "_" file)) in
       setdefault_append symbol file symbols_and_filenames)
    files [].

Definition get_exchange_filename_pairs (symbol : string)
    (symbols_and_filenames : list (string * list string))
  : result (list (string * string)) :=
  filenames <- or_raise KeyError (lookup symbol symbols_and_filenames) ;;
  Ok (combinations2 filenames).

(** Lines 134-139 and 141 of [process_filename_pair]: the two exchange keys
    and the names given to the two frames, then the lookup of the two
    exchange objects in [arbitrage_calculator.exchanges].  Reading the two
    files comes between the two in the source and is left out. *)
Definition process_filename_pair_names (filename1 filename2 : string)
  : result (string * string * (string * string)) :=
  exchange1 <- or_raise IndexError (nth_error (split "_" filename1) 2) ;;
  exchange2 <- or_raise IndexError (nth_error (split "_" filename2) 2) ;;
  let symbol1 := join "/" (firstn 2 (split "_" filename1)) in
  let symbol2 := join "/" (firstn 2 (split "_" filename2)) in
  let name1 := (symbol1 ++ "_" ++ exchange1)%string in
  let name2 := (symbol2 ++ "_" ++ exchange2)%string in
  Ok (exchange1, exchange2, (name1, name2)).

Definition process_filename_pair_objects {E : Type}
    (exchanges : list (string * E)) (filename1 filename2 : string)
  : result (E * E) :=
  '(exchange1, exchange2, _) <-
    process_filename_pair_names filename1 filename2 ;;
  exchange_obj1 <- or_raise KeyError (lookup exchange1 exchanges) ;;
  exchange_obj2 <- or_raise KeyError (lookup exchange2 exchanges) ;;
  Ok (exchange_obj1, exchange_obj2).

(** The file name [save_df_to_csv] builds from the frame's name. *)
Definition save_df_to_csv_filename (name : string) : string :=
  (replace_char "/" "_" name ++ ".csv")%string.

End ProcessData.

(* ------------------------------------------------------------------ *)
(** ** Profitability Model: profitability_calculator.py *)

Module ProfitabilityCalculator.

(** The part of an exchange object the calculator reads:
    [fees["trading"]["taker"]] and [fees["funding"]["withdraw"]]. *)
Record exchange : Type := {
  taker : Q;
  withdraw : list (string * Q)
}.

Record ArbitrageCalculator : Type := {
  exchanges : list (string * exchange);
  euro_values : list (string * Q);
  btc_values : list (string * Q)
}.

(** The names the two functions below read without receiving them as
    arguments or binding them locally; Python resolves such a name in the
    module's global namespace and raises NameError when it is not there. *)
Record globals : Type := {
  g_self : option ArbitrageCalculator;
  g_exchange_name1 : option string;
  g_exchange_name2 : option string
}.

(** The module as it is written binds none of the three. *)
Definition module_globals : globals :=
  {| g_self := None; g_exchange_name1 := None; g_exchange_name2 := None |}.

(** A float64 produced by a division: a number, or the inf/nan that numpy
    yields when the divisor is zero. *)
Inductive float64 : Type :=
| Finite (q : Q)
| NonFinite.

Definition np_div (a b : Q) : float64 :=
  if Qeq_bool b 0 then NonFinite else Finite (a / b).

Definition np_mul (a : float64) (b : Q) : float64 :=
  match a with
  | Finite q => Finite (q * b)
  | NonFinite => NonFinite
  end.

(** The one-row frame returned by [profitability_calculator]. *)
Record profitability : Type := {
  max_initial_amount_euro : Q;
  max_initial_amount_btc : Q;
  gross_profit_euro : Q;
  gross_profit_btc : Q;
  percent_gross_profit : float64;
  net_profit_euro : option Q;
  net_profit_btc : option Q;
  percent_net_profit : option float64;
  buy_exchange : string;
  sell_exchange : string;
  timestamp : Z
}.

Section Methods.
Variable self : ArbitrageCalculator.

Definition convert_to_euro (initial_quote_paid : Q) (quote : string)
  : result Q :=
  rate <- or_raise KeyError (lookup quote (euro_values self)) ;;
  Ok (initial_quote_paid * rate)%Q.

Definition convert_to_btc (initial_quote_paid : Q) (quote : string)
  : result Q :=
  if String.eqb quote "BTC" then Ok initial_quote_paid
  else
    rate <- or_raise KeyError (lookup quote (btc_values self)) ;;
    Ok (initial_quote_paid * rate)%Q.

(** The [try ... except KeyError: return None] lookup. *)
Definition get_withdrawal_fee (exchange_name currency : string) : option Q :=
  match lookup exchange_name (exchanges self) with
  | Some e => lookup currency (withdraw e)
  | None => None
  end.

Definition calculate_trade_amounts (df_exchange1 df_exchange2 : Series.t)
    (max_volume transaction_fee_exchange1 transaction_fee_exchange2 : Q)
  : Q * Q :=
  let ask_price_exchange1 := Series.ask_price df_exchange1 in
  let bid_price_exchange2 := Series.bid_price df_exchange2 in
  let initial_quote_paid := (max_volume * ask_price_exchange1)%Q in
  let initial_base_received :=
    (max_volume * (1 - transaction_fee_exchange1))%Q in
  let quote_gained :=
    (initial_base_received * bid_price_exchange2
     * (1 - transaction_fee_exchange2))%Q in
  (initial_quote_paid, quote_gained).

Definition adjust_for_withdrawal (quote_gained : Q)
    (withdrawal_fee_exchange2 : option Q) : option Q :=
  match withdrawal_fee_exchange2 with
  | Some fee => Some (quote_gained - fee)%Q
  | None => Some quote_gained
  end.

Definition calculate_profits (initial_quote_paid quote_gained : Q)
    (quote_gained_after_withdrawal : option Q)
  : Q * float64 * option Q * option float64 :=
  let gross_profit := (quote_gained - initial_quote_paid)%Q in
  let percent_gross_profit :=
    np_mul (np_div gross_profit initial_quote_paid) 100 in
  match quote_gained_after_withdrawal with
  | Some after =>
      let net_profit := (after - initial_quote_paid)%Q in
      let percent_net_profit :=
        np_mul (np_div net_profit initial_quote_paid) 100 in
      (gross_profit, percent_gross_profit,
       Some net_profit, Some percent_net_profit)
  | None => (gross_profit, percent_gross_profit, None, None)
  end.

(** [convert(x, quote) if x is not None else None] *)
Definition convert_if_some (convert : Q -> string -> result Q)
    (x : option Q) (quote : string) : result (option Q) :=
  match x with
  | Some v => r <- convert v quote ;; Ok (Some r)
  | None => Ok None
  end.

(** Lines 103-105: the volume the trade is computed on. *)
Definition max_volume (df_exchange1 df_exchange2 : Series.t) : Q :=
  let volume_exchange1 := Series.ask_volume df_exchange1 in
  let volume_exchange2 := Series.bid_volume df_exchange2 in
  py_min volume_exchange1 volume_exchange2.

(** [exchange_obj1] and [exchange_obj2] are parameters of the source
    function that it overwrites before reading them. *)
Definition profitability_calculator (g : globals)
    (df_exchange1 df_exchange2 : Series.t)
    (exchange_obj1 exchange_obj2 : exchange) : result profitability :=
  let timestamp :=
    (Series.timestamp df_exchange1 + Series.timestamp df_exchange2) / 2 in
  symbol <- or_raise IndexError
              (nth_error (split "_" (Series.name df_exchange1)) 0) ;;
  '(base, quote) <- match split "/" symbol with
                    | [b; q] => Ok (b, q)
                    | _ => Raise ValueError
                    end ;;
  exchange_name1 <- or_raise NameError (g_exchange_name1 g) ;;
  exchange_obj1 <- or_raise KeyError
                     (lookup exchange_name1 (exchanges self)) ;;
  exchange_name2 <- or_raise NameError (g_exchange_name2 g) ;;
  exchange_obj2 <- or_raise KeyError
                     (lookup exchange_name2 (exchanges self)) ;;
  let transaction_fee_exchange1 := taker exchange_obj1 in
  let transaction_fee_exchange2 := taker exchange_obj2 in
  let withdrawal_fee_exchange1 := get_withdrawal_fee exchange_name1 base in
  let withdrawal_fee_exchange2 := get_withdrawal_fee exchange_name2 quote in
  let max_volume := max_volume df_exchange1 df_exchange2 in
  let '(initial_quote_paid, quote_gained) :=
    calculate_trade_amounts df_exchange1 df_exchange2 max_volume
      transaction_fee_exchange1 transaction_fee_exchange2 in
  let quote_gained_after_withdrawal :=
    adjust_for_withdrawal quote_gained withdrawal_fee_exchange2 in
  let '(gross_profit, percent_gross_profit, net_profit, percent_net_profit) :=
    calculate_profits initial_quote_paid quote_gained
      quote_gained_after_withdrawal in
  gross_profit_euro <- convert_to_euro gross_profit quote ;;
  gross_profit_btc <- convert_to_btc gross_profit quote ;;
  net_profit_euro <- convert_if_some convert_to_euro net_profit quote ;;
  net_profit_btc <- convert_if_some convert_to_btc net_profit quote ;;
  max_initial_amount_euro <- convert_to_euro initial_quote_paid quote ;;
  max_initial_amount_btc <- convert_to_btc initial_quote_paid quote ;;
  Ok {| max_initial_amount_euro := max_initial_amount_euro;
        max_initial_amount_btc := max_initial_amount_btc;
        gross_profit_euro := gross_profit_euro;
        gross_profit_btc := gross_profit_btc;
        percent_gross_profit := percent_gross_profit;
        net_profit_euro := net_profit_euro;
        net_profit_btc := net_profit_btc;
        percent_net_profit := percent_net_profit;
        buy_exchange := exchange_name1;
        sell_exchange := exchange_name2;
        timestamp := timestamp |}.
End Methods.

(** The source declares this function without a [self] parameter, so the
    [self] of its body is a global name as well; the body below is what runs
    when the function is called with its four declared arguments. *)
Definition compare_arbitrage_profitability (g : globals)
    (df_exchange1 df_exchange2 : Series.t)
    (exchange_obj1 exchange_obj2 : exchange) : result profitability :=
  self <- or_raise NameError (g_self g) ;;
  result1 <- profitability_calculator self g
               df_exchange1 df_exchange2 exchange_obj1 exchange_obj2 ;;
  result2 <- profitability_calculator self g
               df_exchange2 df_exchange1 exchange_obj2 exchange_obj1 ;;
  Ok (if Qgtb (gross_profit_euro result1) (gross_profit_euro result2)
      then result1 else result2).

(** [d[k] = v] on a dictionary kept as an association list. *)
Fixpoint dict_set {V : Type} (k : string) (v : V) (d : list (string * V))
  : list (string * V) :=
  match d with
  | [] => [(k, v)]
  | (k', v') :: d' =>
      if String.eqb k k' then (k, v) :: d' else (k', v') :: dict_set k v d'
  end.

Section MarketValues.
(** [float(self.exchanges[exchange_name].fetch_ticker(symbol)["last"])]:
    the price the exchange reports, or the exception of the lookup, of the
    request or of the conversion. *)
Variable last : string -> string -> result Q.

(** One turn of the first loop of [load_market_values]; the [except]
    clause logs the exception and leaves the dictionary as it is. *)
Definition load_euro_value (euro_values : list (string * Q))
    (item : string * string) : list (string * Q) :=
  let '(symbol, exchange_name) := item in
  match
    (value <- last symbol exchange_name ;;
     key <- or_raise IndexError (nth_error (split "/" symbol) 0) ;;
     Ok (dict_set key value euro_values))
  with
  | Ok d => d
  | _ => euro_values
  end.

(** One turn of the second loop: BTC/USDT is stored inverted. *)
Definition load_btc_value (btc_values : list (string * Q))
    (item : string * string) : list (string * Q) :=
  let '(symbol, exchange_name) := item in
  match
    (value <- last symbol exchange_name ;;
     stored <- (if String.eqb "BTC/USDT" symbol
                then (if Qeq_bool value 0 then Raise ZeroDivisionError
                      else Ok (1 / value)%Q)
                else Ok value) ;;
     key <- or_raise IndexError (nth_error (split "/" symbol) 0) ;;
     Ok (dict_set key stored btc_values))
  with
  | Ok d => d
  | _ => btc_values
  end.

(** [load_market_values], from the empty dictionaries of [__init__]. *)
Definition load_market_values : list (string * Q) * list (string * Q) :=
  (fold_left load_euro_value
     [("BTC/EUR", "kraken"); ("LTC/EUR", "bitstamp");
      ("USDT/EUR", "coinmarketcap"); ("ETH/EUR", "bitstamp")]%string [],
   fold_left load_btc_value
     [("BTC/USDT", "bittrex"); ("ETH/BTC", "bitstamp");
      ("LTC/BTC", "bittrex")]%string []).
End MarketValues.

End ProfitabilityCalculator.

(* ------------------------------------------------------------------ *)
(** ** Backtest Simulator: arbitrage_backtester.py *)

Module ArbitrageBacktester.

(** A row of a refined frame: the columns [backtest_results] reads. *)
Record Row : Type := {
  timestamp : Z;
  net_profit_euro : Q;
  max_initial_amount : Q
}.

(** A refined frame with the [name] attribute set by [csv_to_df] and the
    default 0, 1, 2, ... row labels. *)
Record dataframe : Type := {
  name : string;
  rows : list Row
}.

Record DataSelector : Type := {
  full_dataframe : dataframe;
  finished : bool;
  index : nat;
  row : option Row
}.

(** [DataSelector.__init__] *)
Definition init (df : dataframe) : DataSelector :=
  {| full_dataframe := df; finished := false; index := 0; row := None |}.

(** [df.loc[i]]: a label that is not in the index raises KeyError. *)
Definition loc (df : dataframe) (i : nat) : result Row :=
  or_raise KeyError (nth_error (rows df) i).

Definition get_next_row (s : DataSelector) : result DataSelector :=
  r <- loc (full_dataframe s) (index s) ;;
  if (List.length (rows (full_dataframe s)) <=? index s + 2)%nat
  then Ok {| full_dataframe := full_dataframe s; finished := true;
             index := index s; row := Some r |}
  else Ok {| full_dataframe := full_dataframe s; finished := finished s;
             index := S (index s); row := Some r |}.

(** [self.row["timestamp"]]: subscripting [None] raises TypeError. *)
Definition current_row (s : DataSelector) : result Row :=
  or_raise TypeError (row s).

(** [round(row["timestamp"] / 1000)] *)
Definition seconds (r : Row) : Z :=
  round_half_even (inject_Z (timestamp r) / 1000).

(** [row["timestamp"] / 1000 < final_time] *)
Definition before (r : Row) (final_time : Z) : bool :=
  Qltb (inject_Z (timestamp r) / 1000) (inject_Z final_time).

(** The [while] loop of [get_next_row_after_time]. *)
Fixpoint after_time_loop (fuel : nat) (final_time : Z) (s : DataSelector)
  : result DataSelector :=
  r <- current_row s ;;
  if before r final_time
  then
    match fuel with
    | O => OutOfFuel
    | S fuel' =>
        s' <- get_next_row s ;;
        if finished s' then Ok s' else after_time_loop fuel' final_time s'
    end
  else Ok s.

Definition get_next_row_after_time (s : DataSelector) (time_step : Z)
  : result DataSelector :=
  r <- current_row s ;;
  let initial_time := seconds r in
  let final_time := initial_time + time_step in
  after_time_loop (List.length (rows (full_dataframe s))) final_time s.

(** The dictionary [profits_over_time]; its ["time"] entry holds whole
    seconds while the frame is scanned and minutes once converted. *)
Record profits_over_time (T : Type) : Type := {
  profit : list Q;
  time : list T;
  cumulative_profit : Q
}.
Arguments profit {T} _.
Arguments time {T} _.
Arguments cumulative_profit {T} _.

Definition max_trade_volume : Q := 1000.
Definition waiting_time_minutes : Z := 90.
Definition waiting_time : Z := waiting_time_minutes * 60.
Definition minimum_profit : Q := 0.

(** The profit the loop tests at a row: [net_profit_euro] times
    [max_initial_amount] capped at [max_trade_volume]. *)
Definition capped_profit (r : Row) : Q :=
  let max_initial_amount :=
    if Qgtb (max_initial_amount r) max_trade_volume
    then max_trade_volume else max_initial_amount r in
  (net_profit_euro r * max_initial_amount)%Q.

(** A trade is realized at a row when the test of line 86 succeeds. *)
Definition realized (r : Row) : bool := Qgtb (capped_profit r) minimum_profit.

Definition state : Type := (DataSelector * profits_over_time Z)%type.

(** One turn of the [while not data_row_selector.finished] loop. *)
Definition loop_body (st : state) : result state :=
  let '(data_row_selector, p) := st in
  r <- current_row data_row_selector ;;
  let time_of_result := seconds r in
  let times := time p ++ [time_of_result] in
  let net_profit_euro := capped_profit r in
  if Qgtb net_profit_euro minimum_profit
  then
    s' <- get_next_row_after_time data_row_selector waiting_time ;;
    Ok (s', {| profit := profit p ++ [net_profit_euro];
               time := times;
               cumulative_profit :=
                 (cumulative_profit p + net_profit_euro)%Q |})
  else
    s' <- get_next_row data_row_selector ;;
    Ok (s', {| profit := profit p; time := times;
               cumulative_profit := cumulative_profit p |}).

Fixpoint while_not_finished (fuel : nat) (st : state) : result state :=
  if finished (fst st) then Ok st
  else
    match fuel with
    | O => OutOfFuel
    | S fuel' => st' <- loop_body st ;; while_not_finished fuel' st'
    end.

Definition convert_time_to_minutes (time_list : list Z) : result (list Q) :=
  match time_list with
  | [] => Raise IndexError
  | t0 :: _ =>
      Ok (map (fun t => py_round (inject_Z (t - t0) / 60) 2) time_list)
  end.

(** The one global name [backtest_results] calls: what
    [convert_seconds_to_minutes] is bound to, if it is bound. *)
Record globals : Type := {
  g_convert_seconds_to_minutes : option (list Z -> result (list Q))
}.

(** The module defines [convert_time_to_minutes] and nothing under the
    name [convert_seconds_to_minutes]. *)
Definition module_globals : globals :=
  {| g_convert_seconds_to_minutes := None |}.

(** [l[-1]] *)
Definition last_item {A : Type} (l : list A) : result A :=
  or_raise IndexError (hd_error (rev l)).

(** [1440 / minutes_elapsed] on Python floats. *)
Definition py_div (a b : Q) : result Q :=
  if Qeq_bool b 0 then Raise ZeroDivisionError else Ok (a / b)%Q.

(** Lines 98-99: the scaling of the cumulative profit to 1440 minutes. *)
Definition normalize (cumulative : Q) (times : list Q) : result Q :=
  minutes_elapsed <- last_item times ;;
  factor <- py_div 1440 minutes_elapsed ;;
  Ok (cumulative * factor)%Q.

(** The scan: lines 64-91. *)
Definition scan (df : dataframe) (direction : nat)
  : result (profits_over_time Z) :=
  buy_exchange <- or_raise IndexError
                    (nth_error (split "_" (name df)) (2 + direction)) ;;
  s0 <- get_next_row (init df) ;;
  '(_, p) <- while_not_finished (List.length (rows df))
               (s0, {| profit := []; time := []; cumulative_profit := 0 |}) ;;
  Ok p.

Definition backtest_results_in (g : globals) (df : dataframe)
    (direction : nat) : result (profits_over_time Q) :=
  p <- scan df direction ;;
  convert_seconds_to_minutes <-
    or_raise NameError (g_convert_seconds_to_minutes g) ;;
  times <- convert_seconds_to_minutes (time p) ;;
  cumulative <- normalize (cumulative_profit p) times ;;
  Ok {| profit := profit p; time := times;
        cumulative_profit := cumulative |}.

Definition backtest_results : dataframe -> nat -> result (profits_over_time Q) :=
  backtest_results_in module_globals.

(** The [name] attribute [csv_to_df] gives the frame it reads. *)
Definition csv_to_df_name (filename : string) : string :=
  before_first ".csv" filename.


Section Jobs.
(** The global namespace, and what reading a file of refined_data yields:
    its rows, or the exception [pd.read_csv] raises. *)
Variable g : globals.
Variable read_csv : string -> result (list Row).


End Jobs.

(** The [for index in range(4)] loop of [give_jobs]: the files handed to
    [put_to_text_files], in order, and the IndexError that ends the loop
    when [files] is too short. *)
Fixpoint give_jobs_loop (files : list string) (thread_index : nat)
    (indexes : list nat) : list string * option exn :=
  match indexes with
  | [] => ([], None)
  | index :: indexes' =>
      match nth_error files (thread_index * 4 + index) with
      | None => ([], Some IndexError)
      | Some filename =>
          let '(jobs, e) := give_jobs_loop files thread_index indexes' in
          (filename :: jobs, e)
      end
  end.

Definition give_jobs (files : list string) (thread_index : nat)
  : list string * option exn :=
  give_jobs_loop files thread_index (seq 0 4).

(** [start_and_join_jobs]: the jobs of the 952 threads, thread by thread. *)
Definition start_and_join_jobs (files : list string)
  : list (list string * option exn) :=
  map (give_jobs files) (seq 0 952).

End ArbitrageBacktester.

(* ================================================================== *)
(** * Properties *)

(** ** Generic facts about the monad and the primitives *)

Lemma bind_Ok_inv {A B : Type} (m : result A) (k : A -> result B) (b : B) :
  bind m k = Ok b -> exists a, m = Ok a /\ k a = Ok b.
Proof. destruct m; simpl; intros H; try discriminate; eauto. Qed.

Lemma Qltb_lt (x y : Q) : Qltb x y = true <-> (x < y)%Q.
Proof.
  unfold Qltb. rewrite negb_true_iff. split.
  - intros H. apply Qnot_le_lt. intros Hle.
    apply Qle_bool_iff in Hle. congruence.
  - intros H. destruct (Qle_bool y x) eqn:E; [|reflexivity].
    apply Qle_bool_iff in E. exfalso. eapply Qlt_not_le; eauto.
Qed.

Lemma Qltb_ge (x y : Q) : Qltb x y = false <-> (y <= x)%Q.
Proof.
  unfold Qltb. rewrite negb_false_iff. apply Qle_bool_iff.
Qed.

Lemma truthy_true (x : Q) : truthy x = true <-> ~ (x == 0)%Q.
Proof.
  unfold truthy. rewrite negb_true_iff. split.
  - intros H E. apply Qeq_bool_iff in E. congruence.
  - intros H. destruct (Qeq_bool x 0) eqn:E; [|reflexivity].
    apply Qeq_bool_iff in E. contradiction.
Qed.

Lemma truthy_false (x : Q) : truthy x = false <-> (x == 0)%Q.
Proof.
  unfold truthy. rewrite negb_false_iff. apply Qeq_bool_iff.
Qed.

Lemma fold_left_Qplus_acc (l : list Q) (a : Q) :
  (fold_left Qplus l a == a + fold_right Qplus 0 l)%Q.
Proof.
  revert a. induction l as [|x l IH]; intros a; simpl.
  - ring.
  - rewrite IH. ring.
Qed.

Lemma py_sum_fold_right (l : list Q) :
  (py_sum l == fold_right Qplus 0 l)%Q.
Proof. unfold py_sum. rewrite fold_left_Qplus_acc. ring. Qed.

Lemma round_half_even_div_0 (d : Z) : 0 < d -> round_half_even_div 0 d = 0.
Proof.
  intros Hd. unfold round_half_even_div.
  rewrite Z.mod_0_l by lia. rewrite Z.div_0_l by lia.
  destruct (2 * 0 <? d) eqn:E; [reflexivity|].
  apply Z.ltb_ge in E. lia.
Qed.

Lemma round_half_even_zero (x : Q) : (x == 0)%Q -> round_half_even x = 0.
Proof.
  intros Hx. unfold round_half_even.
  assert (Qnum x = 0) as ->.
  { unfold Qeq in Hx. simpl in Hx. lia. }
  apply round_half_even_div_0. reflexivity.
Qed.

Lemma py_round_zero (x : Q) (n : Z) : (x == 0)%Q -> (py_round x n == 0)%Q.
Proof.
  intros Hx. unfold py_round. destruct (0 <=? n).
  - rewrite round_half_even_zero.
    + unfold Qdiv. apply Qmult_0_l.
    + rewrite Hx. ring.
  - rewrite round_half_even_zero.
    + reflexivity.
    + rewrite Hx. unfold Qdiv. apply Qmult_0_l.
Qed.

(* ------------------------------------------------------------------ *)
(** ** Snapshot Aggregator *)

Module OrderbookHdfSpec.
Import OrderbookHdf.

(** The spec's [Σ volume] and [Σ price·volume] over a list of levels. *)
Definition total_volume (l : list order) : Q :=
  fold_right (fun o acc => (snd o + acc)%Q) 0%Q l.

Definition total_price_volume (l : list order) : Q :=
  fold_right (fun o acc => (fst o * snd o + acc)%Q) 0%Q l.

Lemma total_volume_sum (l : list order) :
  (py_sum (map snd l) == total_volume l)%Q.
Proof.
  rewrite py_sum_fold_right. induction l as [|o l IH]; simpl.
  - reflexivity.
  - rewrite IH. reflexivity.
Qed.

Lemma total_price_volume_sum (l : list order) :
  (py_sum (map (fun o => fst o * snd o) l) == total_price_volume l)%Q.
Proof.
  rewrite py_sum_fold_right. induction l as [|o l IH]; simpl.
  - reflexivity.
  - rewrite IH. reflexivity.
Qed.

(** The three facts about one side of the book. *)
Definition side_ok (orders : list order) : Prop :=
  let top := firstn 3 orders in
  let res := calculate_volume_and_weighted_price top in
  (fst res == total_volume top)%Q /\
  (~ (total_volume top == 0)%Q ->
   (snd res == total_price_volume top / total_volume top)%Q) /\
  ((total_volume top == 0)%Q -> snd res = 0%Q).

Lemma side_ok_all (orders : list order) : side_ok orders.
Proof.
  unfold side_ok. set (top := firstn 3 orders).
  unfold calculate_volume_and_weighted_price. cbn [fst snd].
  pose proof (total_volume_sum top) as HV.
  pose proof (total_price_volume_sum top) as HP.
  split; [exact HV|]. split.
  - intros Hnz.
    assert (truthy (py_sum (map snd top)) = true) as ->.
    { apply truthy_true. rewrite HV. exact Hnz. }
    rewrite HP, HV. reflexivity.
  - intros Hz.
    assert (truthy (py_sum (map snd top)) = false) as ->.
    { apply truthy_false. rewrite HV. exact Hz. }
    reflexivity.
Qed.

(** C9. On each side of the book the aggregator takes the first three
    levels, reports their total volume, and computes the weighted price as
    Σ(price·volume) / Σ(volume) over them; when that total volume is zero
    the weighted price is 0 without dividing, and it stays 0 in the row
    after rounding.  The row's prices are these values rounded to the
    price precision. *)
Theorem weighted_price_top3 (ob : orderbook) (p : precision) (ts : Z) :
  let row := calculate_weighted_prices ob p ts in
  let bid := calculate_volume_and_weighted_price (firstn 3 (bids ob)) in
  let ask := calculate_volume_and_weighted_price (firstn 3 (asks ob)) in
  side_ok (bids ob) /\ side_ok (asks ob) /\
  bid_price row = py_round (snd bid) (price p) /\
  ask_price row = py_round (snd ask) (price p) /\
  ((total_volume (firstn 3 (bids ob)) == 0)%Q -> (bid_price row == 0)%Q) /\
  ((total_volume (firstn 3 (asks ob)) == 0)%Q -> (ask_price row == 0)%Q).
Proof.
  cbn zeta.
  pose proof (side_ok_all (bids ob)) as Hb.
  pose proof (side_ok_all (asks ob)) as Ha.
  split; [exact Hb|]. split; [exact Ha|].
  unfold calculate_weighted_prices.
  destruct (calculate_volume_and_weighted_price (firstn 3 (bids ob)))
    as [bv bp] eqn:Eb.
  destruct (calculate_volume_and_weighted_price (firstn 3 (asks ob)))
    as [av ap] eqn:Ea.
  simpl. split; [reflexivity|]. split; [reflexivity|].
  unfold side_ok in Hb, Ha. cbn zeta in Hb, Ha.
  rewrite Eb in Hb. rewrite Ea in Ha. simpl in Hb, Ha.
  destruct Hb as (_ & _ & Hb0). destruct Ha as (_ & _ & Ha0).
  split; intros Hz.
  - apply py_round_zero. rewrite (Hb0 Hz). reflexivity.
  - apply py_round_zero. rewrite (Ha0 Hz). reflexivity.
Qed.

Definition book1 : orderbook :=
  {| bids := [(100, 1); (99, 3); (98, 0); (10, 50)]%Q;
     asks := [(101, 0); (102, 0)]%Q |}.

Definition prec8 : precision := {| amount := 8; price := 8 |}.

Lemma weighted_price_top3_witness :
  (bid_price (calculate_weighted_prices book1 prec8 0) == 397 # 4)%Q /\
  (ask_price (calculate_weighted_prices book1 prec8 0) == 0)%Q.
Proof.
  pose proof (weighted_price_top3 book1 prec8 0) as H. cbn zeta in H.
  destruct H as (_ & _ & Hb & _ & _ & Ha0).
  split.
  - rewrite Hb. vm_compute. reflexivity.
  - apply Ha0. vm_compute. reflexivity.
Defined.

End OrderbookHdfSpec.

(* ------------------------------------------------------------------ *)
(** ** Profitability Model *)

Module ProfitabilityCalculatorSpec.
Import ProfitabilityCalculator.

Lemma or_raise_Ok_inv {A : Type} (e : exn) (o : option A) (a : A) :
  or_raise e o = Ok a -> o = Some a.
Proof. destruct o; simpl; congruence. Qed.

(** Peel one [bind] off a hypothesis [H : bind m k = Ok _]. *)
Ltac bind_inv H x Hx :=
  apply bind_Ok_inv in H; destruct H as (x & Hx & H).

(** What a successful call of [profitability_calculator] went through:
    the names it resolved and the figures it converted. *)
Definition run (self : ArbitrageCalculator) (g : globals)
    (df_exchange1 df_exchange2 : Series.t) (r : profitability)
    (quote name1 name2 : string) (obj1 obj2 : exchange) : Prop :=
  let amounts :=
    calculate_trade_amounts df_exchange1 df_exchange2
      (max_volume df_exchange1 df_exchange2) (taker obj1) (taker obj2) in
  let profits :=
    calculate_profits (fst amounts) (snd amounts)
      (adjust_for_withdrawal (snd amounts)
         (get_withdrawal_fee self name2 quote)) in
  (exists symbol base,
      nth_error (split "_" (Series.name df_exchange1)) 0 = Some symbol /\
      split "/" symbol = [base; quote]) /\
  g_exchange_name1 g = Some name1 /\
  g_exchange_name2 g = Some name2 /\
  lookup name1 (exchanges self) = Some obj1 /\
  lookup name2 (exchanges self) = Some obj2 /\
  convert_to_euro self (fst (fst (fst profits))) quote
  = Ok (gross_profit_euro r) /\
  convert_if_some (convert_to_euro self) (snd (fst profits)) quote
  = Ok (net_profit_euro r) /\
  convert_to_euro self (fst amounts) quote = Ok (max_initial_amount_euro r) /\
  percent_gross_profit r = snd (fst (fst profits)) /\
  percent_net_profit r = snd profits /\
  buy_exchange r = name1 /\
  sell_exchange r = name2.

Lemma profitability_calculator_Ok_inv (self : ArbitrageCalculator)
    (g : globals) (df1 df2 : Series.t) (o1 o2 : exchange)
    (r : profitability) :
  profitability_calculator self g df1 df2 o1 o2 = Ok r ->
  exists quote name1 name2 obj1 obj2,
    run self g df1 df2 r quote name1 name2 obj1 obj2.
Proof.
  unfold profitability_calculator. intros H.
  bind_inv H symbol Hsym. apply or_raise_Ok_inv in Hsym.
  bind_inv H bq Hbq. destruct bq as [base quote].
  bind_inv H n1 Hn1. apply or_raise_Ok_inv in Hn1.
  bind_inv H e1 He1. apply or_raise_Ok_inv in He1.
  bind_inv H n2 Hn2. apply or_raise_Ok_inv in Hn2.
  bind_inv H e2 He2. apply or_raise_Ok_inv in He2.
  exists quote, n1, n2, e1, e2. unfold run. cbn zeta.
  destruct (calculate_trade_amounts df1 df2 (max_volume df1 df2)
              (taker e1) (taker e2)) as [paid gained] eqn:Eamt.
  cbn [fst snd].
  destruct (calculate_profits paid gained
              (adjust_for_withdrawal gained
                 (get_withdrawal_fee self n2 quote)))
    as [[[gross pgross] net] pnet] eqn:Eprof.
  cbn [fst snd].
  bind_inv H gpe Hgpe. bind_inv H gpb Hgpb.
  bind_inv H npe Hnpe. bind_inv H npb Hnpb.
  bind_inv H mae Hmae. bind_inv H mab Hmab.
  injection H as <-.
  assert (Hsplit : split "/" symbol = [base; quote]).
  { destruct (split "/" symbol) as [|b [|q [|x l]]]; try discriminate.
    injection Hbq as -> ->. reflexivity. }
  cbn [gross_profit_euro net_profit_euro max_initial_amount_euro
       percent_gross_profit percent_net_profit buy_exchange sell_exchange].
  repeat split; try assumption.
  exists symbol, base. split; assumption.
Qed.

(** Example data: two exchanges quoting BTC/EUR. *)
Definition kraken : exchange :=
  {| taker := 0; withdraw := [("EUR"%string, 1 # 2)]%Q |}.
Definition bitstamp : exchange :=
  {| taker := 0; withdraw := [("BTC"%string, 1 # 1000)]%Q |}.

Definition calc : ArbitrageCalculator :=
  {| exchanges := [("kraken"%string, kraken); ("bitstamp"%string, bitstamp)];
     euro_values := [("EUR"%string, 1%Q); ("BTC"%string, 6000%Q)];
     btc_values := [("EUR"%string, (1 # 6000)%Q)] |}.

(** A global namespace in which the three free names are bound. *)
Definition bound (n1 n2 : string) : globals :=
  {| g_self := Some calc;
     g_exchange_name1 := Some n1;
     g_exchange_name2 := Some n2 |}.

Definition snapshot (nm : string) (ts : Z) (ask askv bid bidv : Q)
  : Series.t :=
  {| Series.name := nm; Series.timestamp := ts;
     Series.ask_price := ask; Series.ask_volume := askv;
     Series.bid_price := bid; Series.bid_volume := bidv |}.

Definition rowA : Series.t := snapshot "BTC/EUR_kraken" 1000 101 1 100 1.
Definition rowB : Series.t := snapshot "BTC/EUR_bitstamp" 1400 102 1 99 1.

(** As the module stands the names are unbound and both entry points
    raise NameError on every well-formed input. *)
Remark unbound_names_raise :
  profitability_calculator calc module_globals rowA rowB kraken bitstamp
  = Raise NameError /\
  compare_arbitrage_profitability module_globals rowA rowB kraken bitstamp
  = Raise NameError.
Proof. split; reflexivity. Qed.

(** *** Which direction is returned *)

(** C1, as the code decides it.  When both directions yield a record,
    [compare_arbitrage_profitability] returns the first direction's record
    exactly when its [gross_profit_euro] is strictly greater than the
    second's; otherwise, and so also when the two are equal, it returns
    the second direction's record. *)
Theorem compare_returns_strictly_better
    (g : globals) (self : ArbitrageCalculator) (df1 df2 : Series.t)
    (o1 o2 : exchange) (r1 r2 : profitability) :
  g_self g = Some self ->
  profitability_calculator self g df1 df2 o1 o2 = Ok r1 ->
  profitability_calculator self g df2 df1 o2 o1 = Ok r2 ->
  ((gross_profit_euro r2 < gross_profit_euro r1)%Q ->
   compare_arbitrage_profitability g df1 df2 o1 o2 = Ok r1) /\
  ((gross_profit_euro r1 <= gross_profit_euro r2)%Q ->
   compare_arbitrage_profitability g df1 df2 o1 o2 = Ok r2).
Proof.
  intros Hself H1 H2. unfold compare_arbitrage_profitability.
  rewrite Hself. cbn [or_raise bind]. rewrite H1, H2. cbn [bind].
  unfold Qgtb. split; intros Hcmp.
  - apply Qltb_lt in Hcmp. rewrite Hcmp. reflexivity.
  - apply Qltb_ge in Hcmp. rewrite Hcmp. reflexivity.
Qed.

Lemma compare_returns_strictly_better_witness :
  compare_arbitrage_profitability (bound "kraken" "bitstamp")
    rowA rowB kraken bitstamp
  = profitability_calculator calc (bound "kraken" "bitstamp")
      rowB rowA bitstamp kraken.
Proof.
  destruct (compare_returns_strictly_better (bound "kraken" "bitstamp") calc
              rowA rowB kraken bitstamp _ _ eq_refl eq_refl eq_refl)
    as [_ Htie].
  rewrite Htie.
  - reflexivity.
  - vm_compute. discriminate.
Defined.

(** The two directions of [rowA]/[rowB] both lose exactly 2 EUR, their
    records differ, and the record returned is the second direction's. *)
Lemma compare_tie_returns_second :
  exists r1 r2,
    profitability_calculator calc (bound "kraken" "bitstamp")
      rowA rowB kraken bitstamp = Ok r1 /\
    profitability_calculator calc (bound "kraken" "bitstamp")
      rowB rowA bitstamp kraken = Ok r2 /\
    (gross_profit_euro r1 == gross_profit_euro r2)%Q /\
    r1 <> r2 /\
    compare_arbitrage_profitability (bound "kraken" "bitstamp")
      rowA rowB kraken bitstamp = Ok r2 /\
    compare_arbitrage_profitability (bound "kraken" "bitstamp")
      rowA rowB kraken bitstamp <> Ok r1.
Proof.
  eexists. eexists.
  split; [vm_compute; reflexivity|].
  split; [vm_compute; reflexivity|].
  split; [vm_compute; reflexivity|].
  split; [intros H; discriminate H|].
  split; [vm_compute; reflexivity|].
  vm_compute. intros H. discriminate H.
Qed.

(** *** The withdrawal fee *)

(** [adjust_for_withdrawal] never hands [None] to [calculate_profits], so
    the branch of [calculate_profits] that leaves the net figures
    undefined is never taken from [profitability_calculator]. *)
Lemma adjust_for_withdrawal_is_some (quote_gained : Q) (fee : option Q) :
  adjust_for_withdrawal quote_gained fee <> None.
Proof. destruct fee; discriminate. Qed.

Lemma calculate_profits_none (paid gained : Q) :
  calculate_profits paid gained None
  = ((gained - paid)%Q, np_mul (np_div (gained - paid) paid) 100, None, None).
Proof. reflexivity. Qed.

(** C2, what the code does instead.  When the sell exchange has no
    withdrawal-fee entry for the quote currency, every record the
    calculator returns carries a net profit equal to its gross profit and
    a net percentage equal to its gross percentage: the missing fee is
    treated as a fee of zero. *)
Theorem missing_fee_net_equals_gross
    (self : ArbitrageCalculator) (g : globals) (df1 df2 : Series.t)
    (o1 o2 : exchange) (r : profitability)
    (symbol base quote name2 : string) :
  nth_error (split "_" (Series.name df1)) 0 = Some symbol ->
  split "/" symbol = [base; quote] ->
  g_exchange_name2 g = Some name2 ->
  get_withdrawal_fee self name2 quote = None ->
  profitability_calculator self g df1 df2 o1 o2 = Ok r ->
  net_profit_euro r = Some (gross_profit_euro r) /\
  percent_net_profit r = Some (percent_gross_profit r).
Proof.
  intros Hsym Hsplit Hname Hfee Hrun.
  apply profitability_calculator_Ok_inv in Hrun.
  destruct Hrun as (quote' & n1 & n2 & e1 & e2 & Hrun).
  unfold run in Hrun. cbn zeta in Hrun.
  destruct Hrun as ((symbol' & base' & Hsym' & Hsplit') & _ & Hn2 & _ & _
                    & Hgross & Hnet & _ & Hpg & Hpn & _).
  assert (symbol' = symbol) as -> by congruence.
  assert (quote' = quote) as -> by congruence.
  assert (n2 = name2) as -> by congruence.
  rewrite Hfee in *. cbn [adjust_for_withdrawal calculate_profits fst snd]
    in *.
  unfold convert_if_some in Hnet. rewrite Hgross in Hnet. cbn [bind] in Hnet.
  split; congruence.
Qed.

Lemma missing_fee_net_equals_gross_witness :
  exists r,
    profitability_calculator calc (bound "kraken" "bitstamp")
      rowA rowB kraken bitstamp = Ok r /\
    get_withdrawal_fee calc "bitstamp" "EUR" = None /\
    net_profit_euro r = Some (gross_profit_euro r) /\
    percent_net_profit r = Some (percent_gross_profit r).
Proof.
  eexists. split; [vm_compute; reflexivity|]. split; [reflexivity|].
  apply (missing_fee_net_equals_gross calc (bound "kraken" "bitstamp")
           rowA rowB kraken bitstamp _ "BTC/EUR" "BTC" "EUR" "bitstamp");
    reflexivity.
Defined.

(** *** The trade volume *)



Definition bigA : Series.t := snapshot "BTC/EUR_kraken" 1000 101 2000 100 5.
Definition bigB : Series.t := snapshot "BTC/EUR_bitstamp" 1400 102 7 99 3000.



End ProfitabilityCalculatorSpec.

(* ------------------------------------------------------------------ *)
(** ** Stream Synchronizer *)

Module ProcessDataSpec.
Import ProcessData.

(** The tolerance bound on a pair. *)
Definition within (tol : Z) (p : Series.t * Series.t) : Prop :=
  Z.abs (Series.timestamp (fst p) - Series.timestamp (snd p)) < tol.

(** The frames and the tolerance never change. *)
Definition same_input (s s' : SynchronizedDataSelector) : Prop :=
  df1 s' = df1 s /\ df2 s' = df2 s /\ tolerance s' = tolerance s.

(** Both cursors point at a row. *)
Definition in_range (s : SynchronizedDataSelector) : Prop :=
  (index1 s < List.length (df1 s))%nat /\
  (index2 s < List.length (df2 s))%nat.

(** What each kind of return value of [get_next_row_pair] tells. *)
Definition outcome (s : SynchronizedDataSelector) (ret : returned)
    (s' : SynchronizedDataSelector) : Prop :=
  match ret with
  | None => finished s = true /\ s' = s
  | Some (None, None) => finished s' = true
  | Some (Some row1, Some row2) =>
      within (tolerance s) (row1, row2) /\
      finished s' = false /\
      (index1 s < index1 s')%nat /\ (index2 s < index2 s')%nat /\
      in_range s'
  | Some _ => False
  end.

Lemma advance_same_input (s : SynchronizedDataSelector) (r1 r2 : Series.t) :
  let s' := _advance_index_with_greater_timestamp s r1 r2 in
  same_input s s' /\ finished s' = finished s /\
  (index1 s <= index1 s')%nat /\ (index2 s <= index2 s')%nat /\
  (index1 s' + index2 s' = S (index1 s + index2 s))%nat /\
  (index1 s' <= S (index1 s))%nat /\ (index2 s' <= S (index2 s))%nat.
Proof.
  unfold _advance_index_with_greater_timestamp, same_input.
  destruct (Series.timestamp r2 <? Series.timestamp r1); cbn;
    repeat split; lia.
Qed.

Lemma get_next_row_pair_loop_outcome (fuel : nat) :
  forall s ret s',
    get_next_row_pair_loop fuel s = Ok (ret, s') ->
    same_input s s' /\ outcome s ret s'.
Proof.
  induction fuel as [|fuel IH]; intros s ret s' H; cbn [get_next_row_pair_loop] in H.
  - destruct (finished s) eqn:F; [|discriminate].
    injection H as <- <-. unfold same_input, outcome. auto.
  - destruct (finished s) eqn:F.
    { injection H as <- <-. unfold same_input, outcome. auto. }
    unfold iloc in H.
    destruct (nth_error (df1 s) (index1 s)) as [r1|] eqn:E1; [|discriminate].
    destruct (nth_error (df2 s) (index2 s)) as [r2|] eqn:E2; [|discriminate].
    cbn [or_raise bind] in H.
    destruct (_is_last_row (index1 s) (df1 s)
              || _is_last_row (index2 s) (df2 s)) eqn:L.
    { injection H as <- <-. unfold same_input, outcome. cbn. auto. }
    apply orb_false_iff in L. destruct L as [L1 L2].
    unfold _is_last_row in L1, L2.
    apply Nat.leb_gt in L1. apply Nat.leb_gt in L2.
    destruct (Z.abs (Series.timestamp r1 - Series.timestamp r2)
              <? tolerance s) eqn:T.
    { injection H as <- <-. apply Z.ltb_lt in T.
      unfold same_input, outcome, within, in_range. cbn.
      repeat split; try assumption; lia. }
    apply IH in H. destruct H as [Hsame Hout].
    pose proof (advance_same_input s r1 r2) as Hadv. cbn zeta in Hadv.
    destruct Hadv as ((A1 & A2 & A3) & AF & Ai1 & Ai2 & _).
    set (sa := _advance_index_with_greater_timestamp s r1 r2) in *.
    destruct Hsame as (S1 & S2 & S3).
    split.
    { unfold same_input. repeat split; congruence. }
    unfold outcome in *.
    destruct ret as [[[row1|] [row2|]]|]; try assumption.
    + rewrite A3 in Hout.
      destruct Hout as (Hw & Hf & Hi1 & Hi2 & Hr).
      repeat split; try assumption; try lia; apply Hr.
    + destruct Hout as [Hf _]. congruence.
Qed.

(** The fuel [get_next_row_pair] supplies is enough: with both cursors on
    a row the call returns, and it returns a tuple. *)
Lemma get_next_row_pair_loop_returns (fuel : nat) :
  forall s,
    finished s = false -> in_range s ->
    (List.length (df1 s) - index1 s + (List.length (df2 s) - index2 s)
     <= fuel)%nat ->
    exists t s', get_next_row_pair_loop fuel s = Ok (Some t, s').
Proof.
  induction fuel as [|fuel IH]; intros s F [R1 R2] Hfuel.
  - lia.
  - cbn [get_next_row_pair_loop]. rewrite F. unfold iloc.
    destruct (nth_error (df1 s) (index1 s)) as [r1|] eqn:E1.
    2:{ apply nth_error_None in E1. lia. }
    destruct (nth_error (df2 s) (index2 s)) as [r2|] eqn:E2.
    2:{ apply nth_error_None in E2. lia. }
    cbn [or_raise bind].
    destruct (_is_last_row (index1 s) (df1 s)
              || _is_last_row (index2 s) (df2 s)) eqn:L; [eauto|].
    apply orb_false_iff in L. destruct L as [L1 L2].
    unfold _is_last_row in L1, L2.
    apply Nat.leb_gt in L1. apply Nat.leb_gt in L2.
    destruct (Z.abs (Series.timestamp r1 - Series.timestamp r2)
              <? tolerance s); [eauto|].
    pose proof (advance_same_input s r1 r2) as Hadv. cbn zeta in Hadv.
    destruct Hadv as ((A1 & A2 & A3) & AF & Ai1 & Ai2 & Asum & Au1 & Au2).
    apply IH.
    + congruence.
    + unfold in_range. rewrite A1, A2. lia.
    + rewrite A1, A2. lia.
Qed.

Lemma get_next_row_pair_returns (s : SynchronizedDataSelector) :
  finished s = false -> in_range s ->
  exists t s', get_next_row_pair s = Ok (Some t, s').
Proof.
  intros F R. apply get_next_row_pair_loop_returns; try assumption. lia.
Qed.

(** *** The loop of [refine_results] with the pair itself as the result *)

Definition pair_up (row1 row2 : Series.t) : result (Series.t * Series.t) :=
  Ok (row1, row2).

Lemma refine_loop_pairs (fuel : nat) :
  forall s acc out,
    refine_loop pair_up fuel s acc = Ok out ->
    exists new,
      out = acc ++ new /\
      Forall (within (tolerance s)) new /\
      (new = [] \/
       (List.length new + index1 s < List.length (df1 s))%nat /\
       (List.length new + index2 s < List.length (df2 s))%nat).
Proof.
  induction fuel as [|fuel IH]; intros s acc out H; cbn [refine_loop] in H.
  - destruct (finished s); [|discriminate]. injection H as <-.
    exists []. rewrite app_nil_r. auto.
  - destruct (finished s) eqn:F.
    { injection H as <-. exists []. rewrite app_nil_r. auto. }
    destruct (get_next_row_pair s) as [[ret s']| |] eqn:G;
      cbn [bind] in H; try discriminate.
    apply get_next_row_pair_loop_outcome in G.
    destruct G as ((S1 & S2 & S3) & Hout).
    destruct ret as [[[row1|] [row2|]]|]; cbn [outcome] in Hout;
      try contradiction; try discriminate.
    + destruct Hout as (Hw & Hf & Hi1 & Hi2 & Hr1 & Hr2).
      unfold pair_up in H at 1. cbn [bind] in H.
      apply IH in H. destruct H as (new & -> & Hall & Hlen).
      exists ((row1, row2) :: new). rewrite <- app_assoc. cbn [app].
      split; [reflexivity|]. split.
      * constructor; [exact Hw|]. rewrite S3 in Hall. exact Hall.
      * right. cbn [List.length]. rewrite S1, S2 in *.
        destruct Hlen as [-> | [Hl1 Hl2]]; cbn [List.length]; lia.
    + injection H as <-. exists []. rewrite app_nil_r. auto.
Qed.

Lemma refine_loop_returns (fuel : nat) :
  forall s acc,
    (finished s = false ->
     in_range s /\
     (Nat.min (List.length (df1 s) - index1 s)
              (List.length (df2 s) - index2 s) <= fuel)%nat) ->
    exists out, refine_loop pair_up fuel s acc = Ok out.
Proof.
  induction fuel as [|fuel IH]; intros s acc Hs; cbn [refine_loop].
  - destruct (finished s); [eauto|].
    destruct (Hs eq_refl) as [[R1 R2] Hfuel]. lia.
  - destruct (finished s) eqn:F; [eauto|].
    destruct (Hs eq_refl) as [R Hfuel].
    destruct (get_next_row_pair_returns s F R) as (t & s' & G).
    rewrite G. cbn [bind].
    apply get_next_row_pair_loop_outcome in G.
    destruct G as ((S1 & S2 & S3) & Hout).
    destruct t as [[row1|] [row2|]]; cbn [outcome] in Hout;
      try contradiction; [|eauto].
    destruct Hout as (Hw & Hf & Hi1 & Hi2 & Hr).
    unfold pair_up at 1. cbn [bind]. apply IH. intros _.
    split; [exact Hr|]. destruct Hr as [Hr1 Hr2], R as [R1 R2].
    rewrite S1, S2 in *. lia.
Qed.

(** On two non-empty frames the synchronizer runs to its end and hands
    back a list of pairs. *)
Lemma aligned_pairs_returns (tol : Z) (d1 d2 : list Series.t) :
  d1 <> [] -> d2 <> [] -> exists pairs, aligned_pairs tol d1 d2 = Ok pairs.
Proof.
  intros H1 H2. unfold aligned_pairs, refine_results_with.
  apply (refine_loop_returns _ (init d1 d2 tol) []). intros _. cbn.
  destruct d1; [contradiction|]. destruct d2; [contradiction|].
  unfold in_range. cbn. repeat split; lia.
Qed.

(** The number of pairs never exceeds the length of either frame. *)
Lemma aligned_pairs_length (tol : Z) (d1 d2 : list Series.t)
    (pairs : list (Series.t * Series.t)) :
  aligned_pairs tol d1 d2 = Ok pairs ->
  (List.length pairs <= Nat.min (List.length d1) (List.length d2))%nat.
Proof.
  unfold aligned_pairs, refine_results_with. intros H.
  apply refine_loop_pairs in H. destruct H as (new & -> & _ & Hlen).
  cbn in Hlen. cbn [app].
  destruct Hlen as [-> | [Hl1 Hl2]]; cbn [List.length]; lia.
Qed.

(** Four snapshots a side; the rows of the two frames are told apart by
    their ask price. *)
Definition at_time (ask : Q) (t : Z) : Series.t :=
  {| Series.name := "BTC/EUR"; Series.timestamp := t;
     Series.ask_price := ask; Series.ask_volume := 1;
     Series.bid_price := 100; Series.bid_volume := 1 |}.

Definition streamA : list Series.t :=
  map (at_time 101) [1000; 70000; 200000; 300000].
Definition streamB : list Series.t :=
  map (at_time 102) [1500; 150000; 210000; 400000].

(** C7. Every pair the synchronizer emits has its two timestamps
    strictly closer than the tolerance. *)
Theorem emitted_pairs_within_tolerance (tol : Z) (d1 d2 : list Series.t)
    (pairs : list (Series.t * Series.t)) :
  aligned_pairs tol d1 d2 = Ok pairs ->
  Forall (within tol) pairs.
Proof.
  unfold aligned_pairs, refine_results_with. intros H.
  apply refine_loop_pairs in H. destruct H as (new & -> & Hall & _).
  exact Hall.
Qed.

Lemma emitted_pairs_within_tolerance_witness :
  aligned_pairs 60000 streamA streamB
  = Ok [(at_time 101 1000, at_time 102 1500);
        (at_time 101 200000, at_time 102 150000)] /\
  Forall (within 60000)
    [(at_time 101 1000, at_time 102 1500);
     (at_time 101 200000, at_time 102 150000)].
Proof.
  split; [reflexivity|].
  apply (emitted_pairs_within_tolerance 60000 streamA streamB). reflexivity.
Defined.

(** C6, what the code does.  On two frames of one snapshot each the first
    call of [get_next_row_pair] finds both cursors on a last row, marks
    the selector finished and returns [(None, None)]: no pair is emitted,
    whatever the timestamps and the tolerance.  In Scenario 1 the two
    snapshots are within tolerance and are dropped all the same. *)
Theorem single_snapshot_frames_emit_nothing :
  (forall (tol : Z) (a b : Series.t), aligned_pairs tol [a] [b] = Ok []) /\
  within 60000 (at_time 101 1000, at_time 102 1000) /\
  refine_results pair_up [at_time 101 1000] [at_time 102 1000] = Ok [] /\
  get_next_row_pair (init [at_time 101 1000] [at_time 102 1000] 60000)
  = Ok (Some (None, None),
        {| df1 := [at_time 101 1000]; df2 := [at_time 102 1000];
           tolerance := 60000; index1 := 0; index2 := 0;
           finished := true |}).
Proof.
  split; [reflexivity|]. split; [reflexivity|].
  split; reflexivity.
Qed.

(** C8, what the code does.  [get_next_row_pair] reads both current rows
    before it tests for exhaustion, so an empty frame on either side
    makes the first read raise IndexError. *)
Theorem empty_frame_raises (tol : Z) (d : list Series.t) :
  aligned_pairs tol [] d = Raise IndexError /\
  aligned_pairs tol d [] = Raise IndexError.
Proof.
  split; [reflexivity|]. destruct d; reflexivity.
Qed.

(** The synchronizer never runs out of fuel: it returns a list of pairs
    on non-empty frames and raises IndexError otherwise. *)
Lemma aligned_pairs_total (tol : Z) (d1 d2 : list Series.t) :
  (d1 <> [] /\ d2 <> [] /\ exists pairs, aligned_pairs tol d1 d2 = Ok pairs)
  \/ ((d1 = [] \/ d2 = []) /\ aligned_pairs tol d1 d2 = Raise IndexError).
Proof.
  destruct d1 as [|a d1].
  - right. split; [left; reflexivity | reflexivity].
  - destruct d2 as [|b d2].
    + right. split; [right; reflexivity | reflexivity].
    + left. split; [discriminate|]. split; [discriminate|].
      apply aligned_pairs_returns; discriminate.
Qed.

End ProcessDataSpec.

(* ------------------------------------------------------------------ *)
(** ** Backtest Simulator *)

Module ArbitrageBacktesterSpec.
Import ArbitrageBacktester.

(** *** Seconds and milliseconds *)

Lemma round_half_even_div_bounds (n d : Z) :
  0 < d ->
  2 * d * round_half_even_div n d - d <= 2 * n
  <= 2 * d * round_half_even_div n d + d.
Proof.
  intros Hd. unfold round_half_even_div.
  pose proof (Z.div_mod n d ltac:(lia)) as Hdm.
  pose proof (Z.mod_pos_bound n d Hd) as Hr.
  set (q := n / d) in *. set (r := n mod d) in *.
  assert (Hq : 2 * n = 2 * (d * q) + 2 * r) by lia.
  assert (E1 : 2 * d * q = 2 * (d * q)) by ring.
  assert (E2 : 2 * d * (q + 1) = 2 * (d * q) + 2 * d) by ring.
  destruct (2 * r <? d) eqn:C1.
  - apply Z.ltb_lt in C1. lia.
  - apply Z.ltb_ge in C1. destruct (d <? 2 * r) eqn:C2.
    + apply Z.ltb_lt in C2. lia.
    + apply Z.ltb_ge in C2. destruct (Z.even q); lia.
Qed.

Lemma seconds_eq (r : Row) :
  seconds r = round_half_even_div (timestamp r) 1000.
Proof.
  unfold seconds, round_half_even. cbn [inject_Z Qdiv Qinv Qmult Qnum Qden].
  rewrite Z.mul_1_r. reflexivity.
Qed.

Lemma seconds_bounds (r : Row) :
  1000 * seconds r - 500 <= timestamp r <= 1000 * seconds r + 500.
Proof.
  rewrite seconds_eq.
  pose proof (round_half_even_div_bounds (timestamp r) 1000 ltac:(lia)).
  lia.
Qed.

Lemma before_lt (r : Row) (final_time : Z) :
  before r final_time = true <-> timestamp r < 1000 * final_time.
Proof.
  unfold before. rewrite Qltb_lt. unfold Qlt.
  cbn [inject_Z Qdiv Qinv Qmult Qnum Qden]. lia.
Qed.


(** A row is always before its own time plus the pause, so the skip of
    [get_next_row_after_time] moves at least one row on. *)
Lemma before_own_cooldown (r : Row) :
  before r (seconds r + waiting_time) = true.
Proof.
  apply before_lt. pose proof (seconds_bounds r).
  unfold waiting_time, waiting_time_minutes. lia.
Qed.


(** *** The cursor *)

Section Cursor.
Variable df : dataframe.

Let len : nat := List.length (rows df).

(** While the scan is under way the selector has read row [index - 1],
    holds it in [row], and two more rows at least follow it. *)
Definition good (s : DataSelector) : Prop :=
  full_dataframe s = df /\
  (finished s = false ->
   (1 <= index s)%nat /\ (index s + 1 < len)%nat /\
   exists r, row s = Some r /\
             nth_error (rows df) (index s - 1) = Some r).

Lemma get_next_row_reads (s : DataSelector) :
  full_dataframe s = df -> (index s < len)%nat ->
  exists s' r,
    get_next_row s = Ok s' /\
    nth_error (rows df) (index s) = Some r /\
    row s' = Some r /\ full_dataframe s' = df /\
    ((finished s' = true /\ (len <= index s + 2)%nat) \/
     (finished s' = finished s /\ index s' = S (index s) /\
      (index s + 2 < len)%nat)).
Proof.
  intros Hdf Hidx. unfold get_next_row, loc. rewrite Hdf.
  destruct (nth_error (rows df) (index s)) as [r|] eqn:E.
  2:{ apply nth_error_None in E. subst len. lia. }
  cbn [or_raise bind]. fold len.
  destruct (len <=? index s + 2)%nat eqn:L.
  - apply Nat.leb_le in L. eexists. exists r.
    split; [reflexivity|]. cbn. auto 10.
  - apply Nat.leb_gt in L. eexists. exists r.
    split; [reflexivity|]. cbn. auto 10.
Qed.

Lemma get_next_row_good (s : DataSelector) :
  good s -> finished s = false ->
  exists s',
    get_next_row s = Ok s' /\ good s' /\
    (finished s' = false -> index s' = S (index s)).
Proof.
  intros [Hdf Hg] F. destruct (Hg F) as (H1 & H2 & r & Hr & Hn).
  destruct (get_next_row_reads s Hdf ltac:(lia))
    as (s' & r' & Hs' & Hn' & Hr' & Hdf' & Hcase).
  exists s'. split; [exact Hs'|].
  destruct Hcase as [[F' _] | (F' & I' & L')].
  - split; [|congruence]. split; [exact Hdf'|]. congruence.
  - split; [|intros _; exact I']. split; [exact Hdf'|]. intros _.
    rewrite I'. split; [lia|]. split; [lia|].
    exists r'. split; [exact Hr'|].
    replace (S (index s) - 1)%nat with (index s) by lia. exact Hn'.
Qed.

(** The first [get_next_row] of [backtest_results]. *)
Lemma first_row_good (s0 : DataSelector) :
  get_next_row (init df) = Ok s0 -> good s0.
Proof.
  intros H0.
  assert (Hlen : (0 < len)%nat).
  { subst len. unfold get_next_row, loc in H0. cbn in H0.
    destruct (rows df); [discriminate|]. cbn. lia. }
  destruct (get_next_row_reads (init df) eq_refl Hlen)
    as (s' & r & Hs' & Hn & Hr & Hdf & Hcase).
  rewrite H0 in Hs'. injection Hs' as <-.
  split; [exact Hdf|]. intros F.
  destruct Hcase as [[F' _] | (_ & I' & L')]; [congruence|].
  cbn in I', L'. rewrite I'. split; [lia|]. split; [lia|].
  exists r. auto.
Qed.

(** What the skip of [get_next_row_after_time] leaves behind. *)
Definition skipped_to (final_time : Z) (s s' : DataSelector) : Prop :=
  good s' /\
  (finished s' = false ->
   (index s <= index s')%nat /\
   (exists r', row s' = Some r' /\ before r' final_time = false) /\
   (forall j rj,
       (index s - 1 <= j < index s' - 1)%nat ->
       nth_error (rows df) j = Some rj ->
       before rj final_time = true)).

Lemma after_time_loop_skips (final_time : Z) (fuel : nat) :
  forall s,
    good s -> finished s = false ->
    (len - index s <= fuel + 1)%nat ->
    exists s',
      after_time_loop fuel final_time s = Ok s' /\
      skipped_to final_time s s'.
Proof.
  induction fuel as [|fuel IH]; intros s Hg F Hfuel;
    pose proof Hg as [Hdf Hrow];
    destruct (Hrow F) as (H1 & H2 & r & Hr & Hn).
  - lia.
  - cbn [after_time_loop]. unfold current_row. rewrite Hr.
    cbn [or_raise bind].
    destruct (before r final_time) eqn:B.
    + destruct (get_next_row_good s Hg F) as (s1 & Hs1 & Hg1 & Hi1).
      rewrite Hs1. cbn [bind].
      destruct (finished s1) eqn:F1.
      * exists s1. split; [reflexivity|]. split; [exact Hg1|]. congruence.
      * specialize (Hi1 eq_refl).
        destruct (IH s1 Hg1 F1 ltac:(lia)) as (s' & Hs' & Hg' & Hsk).
        exists s'. split; [exact Hs'|]. split; [exact Hg'|].
        intros F'. destruct (Hsk F') as (Hle & Hrow' & Hbefore).
        split; [lia|]. split; [exact Hrow'|].
        intros j rj Hj Hnj.
        destruct (Nat.eq_dec j (index s - 1)) as [->|Hne].
        -- rewrite Hn in Hnj. injection Hnj as <-. exact B.
        -- apply (Hbefore j rj); [lia | exact Hnj].
    + exists s. split; [reflexivity|]. split; [exact Hg|]. intros _.
      split; [lia|]. split; [eauto|]. intros j rj Hj. lia.
Qed.

Lemma get_next_row_after_time_skips (s : DataSelector) (r : Row)
    (time_step : Z) :
  good s -> finished s = false -> row s = Some r ->
  exists s',
    get_next_row_after_time s time_step = Ok s' /\
    skipped_to (seconds r + time_step) s s'.
Proof.
  intros Hg F Hr. unfold get_next_row_after_time, current_row.
  rewrite Hr. cbn [or_raise bind].
  destruct Hg as [Hdf Hrow]. rewrite Hdf. fold len.
  apply after_time_loop_skips; [split; assumption | exact F | lia].
Qed.

End Cursor.

(** *** The scanning loop *)

(** One turn of the loop, taken from a state in which the loop is still
    running. *)
Definition step (st st' : state) : Prop :=
  finished (fst st) = false /\ loop_body st = Ok st'.

Inductive steps : state -> state -> Prop :=
| steps_refl (st : state) : steps st st
| steps_cons (st st' st'' : state) :
    step st st' -> steps st' st'' -> steps st st''.

Lemma loop_body_good (df : dataframe) (st : state) :
  good df (fst st) -> finished (fst st) = false ->
  exists r st',
    row (fst st) = Some r /\
    loop_body st = Ok st' /\
    good df (fst st') /\
    (finished (fst st') = false -> (index (fst st) < index (fst st'))%nat) /\
    (realized r = true ->
     skipped_to df (seconds r + waiting_time) (fst st) (fst st')).
Proof.
  destruct st as [s p]. cbn [fst]. intros Hg F.
  pose proof Hg as [Hdf Hrow].
  destruct (Hrow F) as (H1 & H2 & r & Hr & Hn).
  exists r. unfold loop_body, current_row. rewrite Hr.
  cbn [or_raise bind]. fold (realized r).
  destruct (realized r) eqn:Re.
  - destruct (get_next_row_after_time_skips df s r waiting_time Hg F Hr)
      as (s' & Hs' & Hsk).
    rewrite Hs'. cbn [bind]. eexists. split; [reflexivity|].
    split; [reflexivity|]. cbn [fst].
    split; [apply Hsk|]. split; [|intros _; exact Hsk].
    intros F'. destruct Hsk as [[_ Hrow'] Hsk].
    destruct (Hsk F') as (Hle & (r' & Hr' & Hb') & _).
    destruct (Nat.eq_dec (index s') (index s)) as [E|E]; [|lia].
    exfalso.
    destruct (Hrow' F') as (_ & _ & r2 & Hr2 & Hn2).
    rewrite E, Hn in Hn2. injection Hn2 as <-.
    rewrite Hr' in Hr2. injection Hr2 as ->.
    pose proof (before_own_cooldown r). congruence.
  - destruct (get_next_row_good df s Hg F) as (s' & Hs' & Hg' & Hi').
    rewrite Hs'. cbn [bind]. eexists. split; [reflexivity|].
    split; [reflexivity|]. cbn [fst]. split; [exact Hg'|].
    split; [|discriminate]. intros F'. rewrite (Hi' F'). lia.
Qed.

Lemma steps_good (df : dataframe) (st st' : state) :
  steps st st' -> good df (fst st) ->
  good df (fst st') /\
  (finished (fst st') = false ->
   (index (fst st) <= index (fst st'))%nat).
Proof.
  induction 1 as [st | st st' st'' [F Hbody] Hrest IH]; intros Hg.
  - split; [exact Hg | lia].
  - destruct (loop_body_good df st Hg F) as (r & st2 & _ & Hb & Hg2 & Hi & _).
    rewrite Hbody in Hb. injection Hb as <-.
    destruct (IH Hg2) as [Hg'' Hle]. split; [exact Hg''|].
    intros F''. specialize (Hle F'').
    destruct (finished (fst st')) eqn:F'.
    + inversion Hrest as [? | ? ? ? [Fs _] _]; subst; congruence.
    + specialize (Hi eq_refl). lia.
Qed.

(** The loop of [backtest_results] visits exactly the states [steps]
    relates, and stops on a finished one. *)
Lemma while_not_finished_steps (fuel : nat) :
  forall st st',
    while_not_finished fuel st = Ok st' ->
    steps st st' /\ finished (fst st') = true.
Proof.
  induction fuel as [|fuel IH]; intros st st' H;
    cbn [while_not_finished] in H.
  - destruct (finished (fst st)) eqn:F; [|discriminate].
    injection H as <-. split; [constructor | exact F].
  - destruct (finished (fst st)) eqn:F.
    + injection H as <-. split; [constructor | exact F].
    + apply bind_Ok_inv in H. destruct H as (st1 & Hb & H).
      destruct (IH _ _ H) as [Hs Hf]. split; [|exact Hf].
      econstructor; [split; eassumption | exact Hs].
Qed.

(** The fuel [scan] supplies is enough. *)
Lemma while_not_finished_returns (df : dataframe) (fuel : nat) :
  forall st,
    good df (fst st) ->
    (finished (fst st) = false ->
     (List.length (rows df) - index (fst st) <= fuel + 1)%nat) ->
    exists st', while_not_finished fuel st = Ok st'.
Proof.
  induction fuel as [|fuel IH]; intros st Hg Hfuel;
    cbn [while_not_finished]; destruct (finished (fst st)) eqn:F;
    eauto.
  - destruct Hg as [_ Hrow]. destruct (Hrow F) as (H1 & H2 & _).
    specialize (Hfuel eq_refl). lia.
  - destruct (loop_body_good df st Hg F) as (r & st1 & _ & Hb & Hg1 & Hi & _).
    rewrite Hb. cbn [bind]. apply IH; [exact Hg1|].
    intros F1. specialize (Hi F1). specialize (Hfuel eq_refl). lia.
Qed.

(** On a frame with at least one row and a name with enough fields the
    scan runs to its end without raising. *)
Lemma scan_returns (df : dataframe) (direction : nat) :
  rows df <> [] ->
  nth_error (split "_" (name df)) (2 + direction) <> None ->
  exists p, scan df direction = Ok p.
Proof.
  intros Hrows Hname. unfold scan.
  destruct (nth_error (split "_" (name df)) (2 + direction)) as [b|];
    [|contradiction].
  cbn [or_raise bind].
  destruct (get_next_row_reads df (init df) eq_refl) as (s0 & r & Hs0 & _).
  { cbn. destruct (rows df); [contradiction | cbn; lia]. }
  rewrite Hs0. cbn [bind].
  pose proof (first_row_good df s0 Hs0) as Hg0.
  destruct (while_not_finished_returns df (List.length (rows df))
              (s0, {| profit := []; time := []; cumulative_profit := 0 |})
              Hg0 ltac:(intros _; lia)) as ([s' p] & H).
  rewrite H. cbn [bind]. eauto.
Qed.

(** *** The pause between trades *)

(** The rows come in non-decreasing order of timestamp. *)
Fixpoint nondecreasing (l : list Row) : bool :=
  match l with
  | [] => true
  | r :: l' =>
      match l' with
      | [] => true
      | r' :: _ => (timestamp r <=? timestamp r') && nondecreasing l'
      end
  end.

Lemma nondecreasing_head (l : list Row) :
  forall a,
    nondecreasing (a :: l) = true ->
    nondecreasing l = true /\
    forall j rj, nth_error l j = Some rj -> timestamp a <= timestamp rj.
Proof.
  induction l as [|b l IH]; intros a H.
  - split; [reflexivity|]. intros [|j] rj Hn; discriminate.
  - change (nondecreasing (a :: b :: l))
      with ((timestamp a <=? timestamp b) && nondecreasing (b :: l)) in H.
    apply andb_true_iff in H. destruct H as [Hab Hl].
    apply Z.leb_le in Hab. split; [exact Hl|].
    intros [|j] rj Hn; cbn [nth_error] in Hn.
    + injection Hn as <-. exact Hab.
    + destruct (IH b Hl) as [_ Hb]. specialize (Hb j rj Hn). lia.
Qed.

Lemma nondecreasing_nth (l : list Row) :
  nondecreasing l = true ->
  forall i j ri rj,
    (i <= j)%nat ->
    nth_error l i = Some ri -> nth_error l j = Some rj ->
    timestamp ri <= timestamp rj.
Proof.
  induction l as [|a l IH]; intros Hl i j ri rj Hij Hi Hj.
  - destruct i; discriminate.
  - destruct (nondecreasing_head l a Hl) as [Hl' Ha].
    destruct i as [|i]; cbn [nth_error] in Hi.
    + injection Hi as <-. destruct j as [|j]; cbn [nth_error] in Hj.
      * injection Hj as <-. lia.
      * exact (Ha j rj Hj).
    + destruct j as [|j]; [lia|]. cbn [nth_error] in Hj.
      apply (IH Hl' i j); [lia | exact Hi | exact Hj].
Qed.



Definition record (t : Z) (net amount : Q) : Row :=
  {| timestamp := t; net_profit_euro := net; max_initial_amount := amount |}.

(** Eight records; trades are realized at 0 s, 5400 s and 30000 s. *)
Definition frame8 : dataframe :=
  {| name := "BTC_EUR_kraken_bitstamp";
     rows := [record 0 1 2000; record 3000000 1 2000;
              record 5400000 1 2000; record 5500000 1 2000;
              record 20000000 (-1) 2000; record 30000000 1 2000;
              record 40000000 1 2000; record 50000000 1 2000] |}.

Definition no_profits : profits_over_time Z :=
  {| profit := []; time := []; cumulative_profit := 0 |}.






(** *** The call of the missing helper *)

(** C10, as the code behaves.  [backtest_results] never returns a result.
    When the frame's name has the field the first line reads, a frame with
    at least one row is scanned to its end and the call of
    [convert_seconds_to_minutes] then raises NameError, while a frame
    without rows raises KeyError at the first row fetch, before the loop;
    when the name is too short the first line raises IndexError. *)
Theorem backtest_results_never_returns (df : dataframe) (direction : nat) :
  (forall res, backtest_results df direction <> Ok res) /\
  (nth_error (split "_" (name df)) (2 + direction) <> None ->
   rows df <> [] ->
   backtest_results df direction = Raise NameError) /\
  (nth_error (split "_" (name df)) (2 + direction) <> None ->
   rows df = [] ->
   backtest_results df direction = Raise KeyError) /\
  (nth_error (split "_" (name df)) (2 + direction) = None ->
   backtest_results df direction = Raise IndexError).
Proof.
  assert (Hne : nth_error (split "_" (name df)) (2 + direction) <> None ->
                rows df <> [] ->
                backtest_results df direction = Raise NameError).
  { intros Hname Hrows.
    destruct (scan_returns df direction Hrows Hname) as [p Hp].
    unfold backtest_results, backtest_results_in. rewrite Hp. reflexivity. }
  assert (Hke : nth_error (split "_" (name df)) (2 + direction) <> None ->
                rows df = [] ->
                backtest_results df direction = Raise KeyError).
  { intros Hname Hrows.
    unfold backtest_results, backtest_results_in, scan.
    destruct (nth_error (split "_" (name df)) (2 + direction));
      [|contradiction].
    cbn [or_raise bind]. unfold get_next_row, loc. cbn [init full_dataframe index].
    rewrite Hrows. reflexivity. }
  assert (Hie : nth_error (split "_" (name df)) (2 + direction) = None ->
                backtest_results df direction = Raise IndexError).
  { intros Hname. unfold backtest_results, backtest_results_in, scan.
    rewrite Hname. reflexivity. }
  split; [|auto].
  intros res Hres.
  destruct (nth_error (split "_" (name df)) (2 + direction)) eqn:En.
  - destruct (rows df) eqn:Er.
    + rewrite Hke in Hres; [discriminate | discriminate | reflexivity].
    + rewrite Hne in Hres; discriminate.
  - rewrite Hie in Hres; [discriminate | reflexivity].
Qed.

Lemma backtest_results_never_returns_witness :
  backtest_results frame8 0 = Raise NameError.
Proof.
  apply (backtest_results_never_returns frame8 0); discriminate.
Defined.

(** A frame with its name and its columns but no rows: the exception is
    KeyError, not NameError. *)
Definition frame0 : dataframe :=
  {| name := "BTC_EUR_kraken_bitstamp"; rows := [] |}.

Lemma empty_frame_raises_KeyError :
  backtest_results frame0 0 = Raise KeyError /\
  backtest_results frame0 0 <> Raise NameError.
Proof. split; [reflexivity | discriminate]. Qed.

(** *** Normalization *)

(** C4, as the code computes it.  Once the scan has returned and the
    conversion has produced the list [times] of elapsed minutes, the
    cumulative profit is multiplied by [1440 / m], [m] being the last
    element of [times], when [m] is not zero.  When [times] is empty the
    function raises IndexError and when [m] is zero it raises
    ZeroDivisionError: no value stands for an undefined result. *)
Theorem normalization_step (g : globals) (df : dataframe) (direction : nat)
    (p : profits_over_time Z) (convert : list Z -> result (list Q))
    (times : list Q) :
  scan df direction = Ok p ->
  g_convert_seconds_to_minutes g = Some convert ->
  convert (time p) = Ok times ->
  (times = [] ->
   backtest_results_in g df direction = Raise IndexError) /\
  (forall front m, times = front ++ [m] -> (m == 0)%Q ->
   backtest_results_in g df direction = Raise ZeroDivisionError) /\
  (forall front m, times = front ++ [m] -> ~ (m == 0)%Q ->
   backtest_results_in g df direction
   = Ok {| profit := profit p; time := times;
           cumulative_profit := (cumulative_profit p * (1440 / m))%Q |}).
Proof.
  intros Hscan Hg Hconv. unfold backtest_results_in.
  rewrite Hscan, Hg. cbn [bind or_raise]. rewrite Hconv. cbn [bind].
  unfold normalize, last_item. split; [|split].
  - intros ->. reflexivity.
  - intros front m -> Hm. rewrite rev_app_distr. cbn [rev app hd_error].
    cbn [or_raise bind]. unfold py_div.
    apply Qeq_bool_iff in Hm. rewrite Hm. reflexivity.
  - intros front m -> Hm. rewrite rev_app_distr. cbn [rev app hd_error].
    cbn [or_raise bind]. unfold py_div.
    destruct (Qeq_bool m 0) eqn:E.
    + apply Qeq_bool_iff in E. contradiction.
    + reflexivity.
Qed.

(** The global namespace with the missing name bound to the helper the
    module does define. *)
Definition with_helper : globals :=
  {| g_convert_seconds_to_minutes := Some convert_time_to_minutes |}.

(** One trade at 0 s, a second sample 720 minutes later: a cumulative
    profit of 100 is scaled to 200. *)
Definition frame720 : dataframe :=
  {| name := "BTC_EUR_kraken_bitstamp";
     rows := [record 0 100 1; record 43200000 0 1;
              record 50000000 0 1; record 60000000 0 1] |}.

Lemma normalization_step_witness :
  exists res,
    backtest_results_in with_helper frame720 0 = Ok res /\
    profit res = [100%Q] /\
    (cumulative_profit res == 200)%Q.
Proof.
  destruct (normalization_step with_helper frame720 0 _ _ _
              eq_refl eq_refl eq_refl) as (_ & _ & Hok).
  eexists. split.
  - apply (Hok [py_round (inject_Z (0 - 0) / 60) 2]).
    + reflexivity.
    + vm_compute. discriminate.
  - split; [reflexivity | vm_compute; reflexivity].
Defined.

(** Three records: one trade, one sample, no time elapsed.  One record:
    the loop is never entered and the series are empty. *)
Definition frame3 : dataframe :=
  {| name := "BTC_EUR_kraken_bitstamp";
     rows := [record 0 1 100; record 1000 1 100; record 2000 1 100] |}.

Definition frame1 : dataframe :=
  {| name := "BTC_EUR_kraken_bitstamp"; rows := [record 0 1 100] |}.

Lemma normalization_raises :
  scan frame3 0
  = Ok {| profit := [(1 * 100)%Q]; time := [0];
          cumulative_profit := (0 + 1 * 100)%Q |} /\
  convert_time_to_minutes [0] = Ok [py_round (inject_Z (0 - 0) / 60) 2] /\
  backtest_results_in with_helper frame3 0 = Raise ZeroDivisionError /\
  backtest_results frame3 0 = Raise NameError /\
  scan frame1 0 = Ok no_profits /\
  backtest_results_in with_helper frame1 0 = Raise IndexError /\
  backtest_results frame1 0 = Raise NameError /\
  (forall cumulative, normalize cumulative [] = Raise IndexError) /\
  (forall cumulative, normalize cumulative [0%Q] = Raise ZeroDivisionError).
Proof. repeat split; reflexivity. Qed.

End ArbitrageBacktesterSpec.

(* ================================================================== *)
(** * Further properties *)

(* ------------------------------------------------------------------ *)
(** ** Stream Synchronizer: what is emitted and from where *)

Module SynchronizerSpec.
Import ProcessData ProcessDataSpec.

(** The pair [p] is made of the rows at positions [fst ij] of the first
    frame and [snd ij] of the second. *)
Definition taken_at (d1 d2 : list Series.t) (ij : nat * nat)
    (p : Series.t * Series.t) : Prop :=
  nth_error d1 (fst ij) = Some (fst p) /\
  nth_error d2 (snd ij) = Some (snd p).

(** Both positions move strictly forward. *)
Definition forward (a b : nat * nat) : Prop :=
  (fst a < fst b)%nat /\ (snd a < snd b)%nat.

(** A position the selector may still reach from [s], short of the last
    row of either frame. *)
Definition ahead (s : SynchronizedDataSelector) (ij : nat * nat) : Prop :=
  (index1 s <= fst ij)%nat /\ (index2 s <= snd ij)%nat /\
  (fst ij + 1 < List.length (df1 s))%nat /\
  (snd ij + 1 < List.length (df2 s))%nat.

Lemma get_next_row_pair_loop_position (fuel : nat) :
  forall s row1 row2 s',
    get_next_row_pair_loop fuel s = Ok (Some (Some row1, Some row2), s') ->
    exists i j,
      ahead s (i, j) /\
      taken_at (df1 s) (df2 s) (i, j) (row1, row2) /\
      index1 s' = S i /\ index2 s' = S j.
Proof.
  induction fuel as [|fuel IH]; intros s row1 row2 s' H;
    cbn [get_next_row_pair_loop] in H.
  - destruct (finished s); discriminate.
  - destruct (finished s) eqn:F; [discriminate|].
    unfold iloc in H.
    destruct (nth_error (df1 s) (index1 s)) as [r1|] eqn:E1; [|discriminate].
    destruct (nth_error (df2 s) (index2 s)) as [r2|] eqn:E2; [|discriminate].
    cbn [or_raise bind] in H.
    destruct (_is_last_row (index1 s) (df1 s)
              || _is_last_row (index2 s) (df2 s)) eqn:L; [discriminate|].
    apply orb_false_iff in L. destruct L as [L1 L2].
    unfold _is_last_row in L1, L2.
    apply Nat.leb_gt in L1. apply Nat.leb_gt in L2.
    destruct (Z.abs (Series.timestamp r1 - Series.timestamp r2)
              <? tolerance s).
    + injection H as <- <- <-. exists (index1 s), (index2 s).
      unfold ahead, taken_at. cbn. repeat split; try assumption; lia.
    + apply IH in H. destruct H as (i & j & Ha & Ht & Hi & Hj).
      pose proof (advance_same_input s r1 r2) as Hadv. cbn zeta in Hadv.
      destruct Hadv as ((A1 & A2 & A3) & _ & Ai1 & Ai2 & _).
      exists i, j. unfold ahead, taken_at in *. rewrite A1, A2 in *.
      cbn [fst snd] in *. repeat split; try tauto; lia.
Qed.

Lemma refine_loop_positions (fuel : nat) :
  forall s acc out,
    refine_loop pair_up fuel s acc = Ok out ->
    exists new positions,
      out = acc ++ new /\
      Forall2 (taken_at (df1 s) (df2 s)) positions new /\
      StronglySorted forward positions /\
      Forall (ahead s) positions.
Proof.
  induction fuel as [|fuel IH]; intros s acc out H; cbn [refine_loop] in H.
  - destruct (finished s); [|discriminate]. injection H as <-.
    exists [], []. rewrite app_nil_r. repeat split; constructor.
  - destruct (finished s) eqn:F.
    { injection H as <-. exists [], []. rewrite app_nil_r.
      repeat split; constructor. }
    destruct (get_next_row_pair s) as [[ret s']| |] eqn:G;
      cbn [bind] in H; try discriminate.
    destruct ret as [[[row1|] [row2|]]|]; try discriminate.
    + unfold pair_up in H at 1. cbn [bind] in H.
      pose proof (get_next_row_pair_loop_outcome _ _ _ _ G)
        as ((S1 & S2 & _) & _).
      apply get_next_row_pair_loop_position in G.
      destruct G as (i & j & Ha & Ht & Hi & Hj).
      apply IH in H. destruct H as (new & positions & -> & Hall & Hsort & Hah).
      exists ((row1, row2) :: new), ((i, j) :: positions).
      rewrite <- app_assoc. cbn [app]. rewrite S1, S2 in Hall.
      split; [reflexivity|]. split; [constructor; assumption|].
      assert (Hfwd : Forall (forward (i, j)) positions).
      { eapply Forall_impl; [|exact Hah]. intros [i' j'] (B1 & B2 & _).
        unfold forward. cbn [fst snd] in *. lia. }
      split; [constructor; assumption|].
      constructor; [exact Ha|].
      eapply Forall_impl; [|exact Hah]. intros [i' j'] (B1 & B2 & B3 & B4).
      unfold ahead in *. rewrite S1 in B3. rewrite S2 in B4. cbn [fst snd] in *.
      destruct Ha as (C1 & C2 & _). cbn [fst snd] in *. lia.
    + injection H as <-. exists [], []. rewrite app_nil_r.
      repeat split; constructor.
    + injection H as <-. exists [], []. rewrite app_nil_r.
      repeat split; constructor.
    + injection H as <-. exists [], []. rewrite app_nil_r.
      repeat split; constructor.
Qed.

(** X1. Every emitted pair is a row of the first frame with a row of the
    second; from one pair to the next the position moves strictly forward
    in both frames, so no row is emitted twice and the order of both frames
    is kept; and the last row of either frame is never emitted. *)
Theorem pairs_taken_in_order (tol : Z) (d1 d2 : list Series.t)
    (pairs : list (Series.t * Series.t)) :
  aligned_pairs tol d1 d2 = Ok pairs ->
  exists positions,
    Forall2 (taken_at d1 d2) positions pairs /\
    StronglySorted forward positions /\
    Forall (fun ij => (fst ij + 1 < List.length d1)%nat /\
                      (snd ij + 1 < List.length d2)%nat) positions.
Proof.
  unfold aligned_pairs, refine_results_with. intros H.
  apply refine_loop_positions in H.
  destruct H as (new & positions & -> & Hall & Hsort & Hah).
  exists positions. cbn in Hall. cbn [app].
  split; [exact Hall|]. split; [exact Hsort|].
  eapply Forall_impl; [|exact Hah]. intros ij (_ & _ & B3 & B4).
  cbn in B3, B4. auto.
Qed.

Lemma pairs_taken_in_order_witness :
  exists positions,
    Forall2 (taken_at streamA streamB) positions
      [(at_time 101 1000, at_time 102 1500);
       (at_time 101 200000, at_time 102 150000)] /\
    StronglySorted forward positions.
Proof.
  destruct (pairs_taken_in_order 60000 streamA streamB _ eq_refl)
    as (positions & H1 & H2 & _).
  exists positions. split; assumption.
Defined.

(** X2. The synchronizer emits strictly fewer pairs than either frame has
    rows. *)
Theorem fewer_pairs_than_rows (tol : Z) (d1 d2 : list Series.t)
    (pairs : list (Series.t * Series.t)) :
  aligned_pairs tol d1 d2 = Ok pairs ->
  (List.length pairs < Nat.min (List.length d1) (List.length d2))%nat.
Proof.
  intros H.
  destruct (aligned_pairs_total tol d1 d2) as [(N1 & N2 & _) | [_ E]];
    [|congruence].
  unfold aligned_pairs, refine_results_with in H.
  apply refine_loop_pairs in H. destruct H as (new & -> & _ & Hlen).
  cbn in Hlen. cbn [app].
  destruct Hlen as [-> | [Hl1 Hl2]]; cbn [List.length]; [|lia].
  destruct d1; [contradiction|]. destruct d2; [contradiction|].
  cbn [List.length]. lia.
Qed.

Lemma fewer_pairs_than_rows_witness :
  (List.length
     [(at_time 101 1000, at_time 102 1500);
      (at_time 101 200000, at_time 102 150000)]
   < Nat.min (List.length streamA) (List.length streamB))%nat.
Proof.
  apply (fewer_pairs_than_rows 60000 streamA streamB). reflexivity.
Defined.

(** *** Frames in timestamp order *)

(** The keys of a list never decrease. *)
Fixpoint nondecreasing_by {A : Type} (key : A -> Z) (l : list A) : bool :=
  match l with
  | [] => true
  | a :: l' =>
      match l' with
      | [] => true
      | b :: _ => (key a <=? key b) && nondecreasing_by key l'
      end
  end.

Lemma nondecreasing_by_head {A : Type} (key : A -> Z) (l : list A) :
  forall a,
    nondecreasing_by key (a :: l) = true ->
    nondecreasing_by key l = true /\
    forall j b, nth_error l j = Some b -> key a <= key b.
Proof.
  induction l as [|b l IH]; intros a H.
  - split; [reflexivity|]. intros [|j] c Hn; discriminate.
  - change (nondecreasing_by key (a :: b :: l))
      with ((key a <=? key b) && nondecreasing_by key (b :: l)) in H.
    apply andb_true_iff in H. destruct H as [Hab Hl].
    apply Z.leb_le in Hab. split; [exact Hl|].
    intros [|j] c Hn; cbn [nth_error] in Hn.
    + injection Hn as <-. exact Hab.
    + destruct (IH b Hl) as [_ Hb]. specialize (Hb j c Hn). lia.
Qed.

Lemma nondecreasing_by_nth {A : Type} (key : A -> Z) (l : list A) :
  nondecreasing_by key l = true ->
  forall i j a b,
    (i <= j)%nat ->
    nth_error l i = Some a -> nth_error l j = Some b ->
    key a <= key b.
Proof.
  induction l as [|x l IH]; intros Hl i j a b Hij Hi Hj.
  - destruct i; discriminate.
  - destruct (nondecreasing_by_head key l x Hl) as [Hl' Hx].
    destruct i as [|i]; cbn [nth_error] in Hi.
    + injection Hi as <-. destruct j as [|j]; cbn [nth_error] in Hj.
      * injection Hj as <-. lia.
      * exact (Hx j b Hj).
    + destruct j as [|j]; [lia|]. cbn [nth_error] in Hj.
      apply (IH Hl' i j); [lia | exact Hi | exact Hj].
Qed.

Lemma StronglySorted_Forall2 {A B : Type} (R : A -> A -> Prop)
    (S : B -> B -> Prop) (T : A -> B -> Prop) :
  (forall a a' b b', T a b -> T a' b' -> R a a' -> S b b') ->
  forall la lb,
    Forall2 T la lb -> StronglySorted R la -> StronglySorted S lb.
Proof.
  intros Hmap la lb H2. induction H2 as [|a b la lb Hab H2 IH]; intros Hs.
  - constructor.
  - apply StronglySorted_inv in Hs. destruct Hs as [Hs Hall].
    constructor; [apply IH; exact Hs|].
    clear IH Hs. induction H2 as [|a' b' la lb Hab' H2 IH].
    + constructor.
    + apply Forall_cons_iff in Hall. destruct Hall as [Ha Hall].
      constructor; [eapply Hmap; eassumption | apply IH; exact Hall].
Qed.

(** The later pair is no earlier than the other, on both sides. *)
Definition no_earlier (p q : Series.t * Series.t) : Prop :=
  Series.timestamp (fst p) <= Series.timestamp (fst q) /\
  Series.timestamp (snd p) <= Series.timestamp (snd q).

(** X3. When both frames are in non-decreasing order of timestamp, so is
    the sequence of emitted pairs, on both sides, and with it the sequence
    of the midpoints [(ta + tb) // 2] that become the records' timestamps. *)
Theorem pairs_in_time_order (tol : Z) (d1 d2 : list Series.t)
    (pairs : list (Series.t * Series.t)) :
  nondecreasing_by Series.timestamp d1 = true ->
  nondecreasing_by Series.timestamp d2 = true ->
  aligned_pairs tol d1 d2 = Ok pairs ->
  StronglySorted no_earlier pairs /\
  StronglySorted Z.le
    (map (fun p => (Series.timestamp (fst p) + Series.timestamp (snd p)) / 2)
         pairs).
Proof.
  intros H1 H2 H. unfold aligned_pairs, refine_results_with in H.
  apply refine_loop_positions in H.
  destruct H as (new & positions & -> & Htaken & Hsorted & _).
  cbn in Htaken. cbn [app].
  assert (Hpairs : StronglySorted no_earlier new).
  { apply (StronglySorted_Forall2 forward no_earlier (taken_at d1 d2))
      with (la := positions); [|exact Htaken | exact Hsorted].
    intros [i j] [i' j'] p q [Tp1 Tp2] [Tq1 Tq2] [F1 F2].
    cbn [fst snd] in *. split.
    - apply (nondecreasing_by_nth Series.timestamp d1 H1 i i'); auto; lia.
    - apply (nondecreasing_by_nth Series.timestamp d2 H2 j j'); auto; lia. }
  split; [exact Hpairs|].
  clear - Hpairs. induction Hpairs as [|p l Hl IH Hall]; cbn [map].
  - constructor.
  - constructor; [exact IH|].
    apply Forall_map. eapply Forall_impl; [|exact Hall].
    intros q [Q1 Q2]. cbn beta. apply Z.div_le_mono; lia.
Qed.

Lemma pairs_in_time_order_witness :
  StronglySorted Z.le
    (map (fun p => (Series.timestamp (fst p) + Series.timestamp (snd p)) / 2)
         [(at_time 101 1000, at_time 102 1500);
          (at_time 101 200000, at_time 102 150000)]).
Proof.
  apply (pairs_in_time_order 60000 streamA streamB); reflexivity.
Defined.

(** *** The consumer *)

(** Feeding the pairs to the consumer one by one, up to its first
    exception. *)
Fixpoint for_each {R : Type} (compare : Series.t -> Series.t -> result R)
    (pairs : list (Series.t * Series.t)) : result (list R) :=
  match pairs with
  | [] => Ok []
  | (row1, row2) :: pairs' =>
      res <- compare row1 row2 ;;
      rest <- for_each compare pairs' ;;
      Ok (res :: rest)
  end.

Lemma refine_loop_pair_up_acc (fuel : nat) :
  forall s acc,
    refine_loop pair_up fuel s acc
    = bind (refine_loop pair_up fuel s []) (fun ps => Ok (acc ++ ps)).
Proof.
  induction fuel as [|fuel IH]; intros s acc; cbn [refine_loop].
  - destruct (finished s); cbn [bind]; [rewrite app_nil_r|]; reflexivity.
  - destruct (finished s); cbn [bind]; [rewrite app_nil_r; reflexivity|].
    destruct (get_next_row_pair s) as [[ret s']| |]; cbn [bind];
      try reflexivity.
    destruct ret as [[[row1|] [row2|]]|]; cbn [bind];
      try (rewrite app_nil_r; reflexivity); try reflexivity.
    unfold pair_up at 1 3. cbn [bind app].
    rewrite (IH s' (acc ++ [(row1, row2)])), (IH s' [(row1, row2)]).
    destruct (refine_loop pair_up fuel s' []); cbn [bind];
      try reflexivity.
    rewrite <- app_assoc. reflexivity.
Qed.

Lemma refine_loop_for_each {R : Type}
    (compare : Series.t -> Series.t -> result R) (fuel : nat) :
  forall s acc,
    (finished s = false ->
     in_range s /\
     (Nat.min (List.length (df1 s) - index1 s)
              (List.length (df2 s) - index2 s) <= fuel)%nat) ->
    refine_loop compare fuel s acc
    = bind (refine_loop pair_up fuel s [])
        (fun ps => bind (for_each compare ps) (fun rs => Ok (acc ++ rs))).
Proof.
  induction fuel as [|fuel IH]; intros s acc Hs; cbn [refine_loop].
  - destruct (finished s).
    + cbn [bind for_each]. rewrite app_nil_r. reflexivity.
    + destruct (Hs eq_refl) as [[R1 R2] Hfuel]. lia.
  - destruct (finished s) eqn:F.
    { cbn [bind for_each]. rewrite app_nil_r. reflexivity. }
    destruct (Hs eq_refl) as [Hr Hfuel].
    destruct (get_next_row_pair_returns s F Hr) as (t & s' & G).
    rewrite G. cbn [bind].
    apply get_next_row_pair_loop_outcome in G.
    destruct G as ((S1 & S2 & S3) & Hout).
    destruct t as [[row1|] [row2|]]; cbn [outcome] in Hout;
      try contradiction;
      [|cbn [bind for_each]; rewrite app_nil_r; reflexivity].
    destruct Hout as (_ & Hf & Hi1 & Hi2 & Hr').
    assert (Hs' : finished s' = false ->
                  in_range s' /\
                  (Nat.min (List.length (df1 s') - index1 s')
                           (List.length (df2 s') - index2 s') <= fuel)%nat).
    { intros _. split; [exact Hr'|].
      destruct Hr' as [Q1 Q2], Hr as [P1 P2]. rewrite S1, S2 in *. lia. }
    unfold pair_up at 1. cbn [bind app].
    rewrite (refine_loop_pair_up_acc fuel s' [(row1, row2)]).
    destruct (refine_loop_returns fuel s' [] Hs') as [ps Hps].
    rewrite Hps. cbn [bind app for_each].
    destruct (compare row1 row2) as [res| |]; cbn [bind]; try reflexivity.
    rewrite (IH s' (acc ++ [res]) Hs'), Hps. cbn [bind].
    destruct (for_each compare ps); cbn [bind]; try reflexivity.
    rewrite <- app_assoc. reflexivity.
Qed.

(** X4. [refine_results] is the synchronizer followed by the consumer: the
    refined frame holds the consumer's result for each emitted pair, in
    order; the first exception of the consumer, or the IndexError of an
    empty frame, is the outcome of the whole call and nothing is saved. *)
Theorem refine_results_is_for_each {R : Type}
    (compare : Series.t -> Series.t -> result R)
    (tol : Z) (d1 d2 : list Series.t) :
  refine_results_with compare tol d1 d2
  = bind (aligned_pairs tol d1 d2) (for_each compare).
Proof.
  destruct d1 as [|a d1]; [reflexivity|].
  destruct d2 as [|b d2]; [reflexivity|].
  unfold aligned_pairs, refine_results_with.
  rewrite refine_loop_for_each.
  - change (fun row1 row2 : Series.t => Ok (row1, row2)) with pair_up.
    destruct (refine_loop pair_up _ _ []); cbn [bind]; try reflexivity.
    destruct (for_each compare a0); reflexivity.
  - intros _. unfold in_range. cbn. repeat split; lia.
Qed.

End SynchronizerSpec.

(* ------------------------------------------------------------------ *)
(** ** Profitability Model: the record and the errors *)

Module ProfitabilitySpec.
Import ProfitabilityCalculator ProfitabilityCalculatorSpec.

(** The figures of a record, written out from the two rows, the two taker
    fees, the withdrawal fee of the sell side and the two rates. *)
Definition record_of (df1 df2 : Series.t) (name1 name2 : string)
    (fee1 fee2 : Q) (withdrawal : option Q) (euro : Q) (btc : option Q)
  : profitability :=
  let volume := max_volume df1 df2 in
  let paid := (volume * Series.ask_price df1)%Q in
  let gained :=
    (volume * (1 - fee1) * Series.bid_price df2 * (1 - fee2))%Q in
  let after := match withdrawal with
               | Some fee => (gained - fee)%Q
               | None => gained
               end in
  let to_btc := fun x : Q => match btc with
                             | Some rate => (x * rate)%Q
                             | None => x
                             end in
  {| max_initial_amount_euro := (paid * euro)%Q;
     max_initial_amount_btc := to_btc paid;
     gross_profit_euro := ((gained - paid) * euro)%Q;
     gross_profit_btc := to_btc (gained - paid)%Q;
     percent_gross_profit := np_mul (np_div (gained - paid) paid) 100;
     net_profit_euro := Some ((after - paid) * euro)%Q;
     net_profit_btc := Some (to_btc (after - paid)%Q);
     percent_net_profit := Some (np_mul (np_div (after - paid) paid) 100);
     buy_exchange := name1;
     sell_exchange := name2;
     timestamp := (Series.timestamp df1 + Series.timestamp df2) / 2 |}.

(** Everything [profitability_calculator] needs to find in order to return:
    a name whose first [_]-field is [base/quote], the two global names bound
    to keys of [self.exchanges], a euro rate for the quote and, unless the
    quote is BTC, a BTC rate for it. *)
Definition found (self : ArbitrageCalculator) (g : globals) (df1 : Series.t)
    (quote name1 name2 : string) (obj1 obj2 : exchange)
    (euro : Q) (btc : option Q) : Prop :=
  (exists symbol base,
      nth_error (split "_" (Series.name df1)) 0 = Some symbol /\
      split "/" symbol = [base; quote]) /\
  g_exchange_name1 g = Some name1 /\
  g_exchange_name2 g = Some name2 /\
  lookup name1 (exchanges self) = Some obj1 /\
  lookup name2 (exchanges self) = Some obj2 /\
  lookup quote (euro_values self) = Some euro /\
  (if String.eqb quote "BTC" then btc = None
   else btc <> None /\ lookup quote (btc_values self) = btc).

Lemma convert_to_euro_Ok (self : ArbitrageCalculator) (x y : Q)
    (quote : string) :
  convert_to_euro self x quote = Ok y ->
  exists rate, lookup quote (euro_values self) = Some rate /\
               y = (x * rate)%Q.
Proof.
  unfold convert_to_euro.
  destruct (lookup quote (euro_values self)) as [rate|]; [|discriminate].
  cbn [or_raise bind]. intros H. injection H as <-. eauto.
Qed.

Lemma convert_to_btc_Ok (self : ArbitrageCalculator) (x y : Q)
    (quote : string) :
  convert_to_btc self x quote = Ok y ->
  if String.eqb quote "BTC" then y = x
  else exists rate, lookup quote (btc_values self) = Some rate /\
                    y = (x * rate)%Q.
Proof.
  unfold convert_to_btc. destruct (String.eqb quote "BTC").
  - intros H. injection H as <-. reflexivity.
  - destruct (lookup quote (btc_values self)) as [rate|]; [|discriminate].
    cbn [or_raise bind]. intros H. injection H as <-. eauto.
Qed.

Lemma found_returns (self : ArbitrageCalculator) (g : globals)
    (df1 df2 : Series.t) (o1 o2 : exchange)
    (quote name1 name2 : string) (obj1 obj2 : exchange)
    (euro : Q) (btc : option Q) :
  found self g df1 quote name1 name2 obj1 obj2 euro btc ->
  profitability_calculator self g df1 df2 o1 o2
  = Ok (record_of df1 df2 name1 name2 (taker obj1) (taker obj2)
          (get_withdrawal_fee self name2 quote) euro btc).
Proof.
  intros ((symbol & base & Hsym & Hsplit) & Hg1 & Hg2 & He1 & He2 & Heuro
          & Hbtc).
  unfold profitability_calculator, record_of.
  rewrite Hsym. cbn [or_raise bind]. rewrite Hsplit. cbn [bind].
  rewrite Hg1. cbn [or_raise bind]. rewrite He1. cbn [or_raise bind].
  rewrite Hg2. cbn [or_raise bind]. rewrite He2. cbn [or_raise bind].
  unfold calculate_trade_amounts, calculate_profits, adjust_for_withdrawal,
    convert_if_some, convert_to_euro, convert_to_btc.
  rewrite Heuro.
  destruct (String.eqb quote "BTC").
  - subst btc.
    destruct (get_withdrawal_fee self name2 quote); reflexivity.
  - destruct Hbtc as [Hsome Hbtc]. rewrite Hbtc.
    destruct btc as [rate|]; [|contradiction].
    destruct (get_withdrawal_fee self name2 quote); reflexivity.
Qed.

Lemma returns_found (self : ArbitrageCalculator) (g : globals)
    (df1 df2 : Series.t) (o1 o2 : exchange) (r : profitability) :
  profitability_calculator self g df1 df2 o1 o2 = Ok r ->
  exists quote name1 name2 obj1 obj2 euro btc,
    found self g df1 quote name1 name2 obj1 obj2 euro btc.
Proof.
  unfold profitability_calculator. intros H.
  bind_inv H symbol Hsym. apply or_raise_Ok_inv in Hsym.
  bind_inv H bq Hbq. destruct bq as [base quote].
  bind_inv H n1 Hn1. apply or_raise_Ok_inv in Hn1.
  bind_inv H e1 He1. apply or_raise_Ok_inv in He1.
  bind_inv H n2 Hn2. apply or_raise_Ok_inv in Hn2.
  bind_inv H e2 He2. apply or_raise_Ok_inv in He2.
  destruct (calculate_trade_amounts df1 df2 (max_volume df1 df2)
              (taker e1) (taker e2)) as [paid gained].
  destruct (calculate_profits paid gained
              (adjust_for_withdrawal gained
                 (get_withdrawal_fee self n2 quote)))
    as [[[gross pgross] net] pnet].
  bind_inv H gpe Hgpe. bind_inv H gpb Hgpb.
  apply convert_to_euro_Ok in Hgpe. destruct Hgpe as (euro & Heuro & _).
  apply convert_to_btc_Ok in Hgpb.
  assert (Hsplit : split "/" symbol = [base; quote]).
  { destruct (split "/" symbol) as [|b [|q [|x l]]]; try discriminate.
    injection Hbq as -> ->. reflexivity. }
  exists quote, n1, n2, e1, e2, euro.
  exists (if String.eqb quote "BTC" then None
          else lookup quote (btc_values self)).
  unfold found. repeat (split; [eauto|]).
  destruct (String.eqb quote "BTC"); [reflexivity|].
  destruct Hgpb as (rate & -> & _). split; [discriminate | reflexivity].
Qed.

Lemma found_unique (self : ArbitrageCalculator) (g : globals)
    (df1 : Series.t) (quote quote' name1 name1' name2 name2' : string)
    (obj1 obj1' obj2 obj2' : exchange) (euro euro' : Q)
    (btc btc' : option Q) :
  found self g df1 quote name1 name2 obj1 obj2 euro btc ->
  found self g df1 quote' name1' name2' obj1' obj2' euro' btc' ->
  quote = quote' /\ name1 = name1' /\ name2 = name2' /\
  obj1 = obj1' /\ obj2 = obj2' /\ euro = euro' /\ btc = btc'.
Proof.
  intros ((s & b & Hs & Hb) & G1 & G2 & E1 & E2 & Eu & Bt)
         ((s' & b' & Hs' & Hb') & G1' & G2' & E1' & E2' & Eu' & Bt').
  assert (s' = s) as -> by congruence.
  assert (quote = quote') as <- by congruence.
  assert (name1 = name1') as <- by congruence.
  assert (name2 = name2') as <- by congruence.
  repeat (split; [congruence|]).
  destruct (String.eqb quote "BTC"); [congruence|].
  destruct Bt as [_ Bt], Bt' as [_ Bt']. congruence.
Qed.

(** X5. [profitability_calculator] returns a record exactly when the row's
    name splits into [base/quote], the two global exchange names are bound
    to keys of [self.exchanges], the quote has a euro rate and, unless it is
    BTC, a BTC rate; the record is then [record_of] these: outlay
    [volume * ask], proceeds [volume * (1 - fee1) * bid * (1 - fee2)], both
    converted by the two rates.  In every other case it raises. *)
Theorem returns_exactly_when_found (self : ArbitrageCalculator) (g : globals)
    (df1 df2 : Series.t) (o1 o2 : exchange) (r : profitability) :
  profitability_calculator self g df1 df2 o1 o2 = Ok r <->
  exists quote name1 name2 obj1 obj2 euro btc,
    found self g df1 quote name1 name2 obj1 obj2 euro btc /\
    r = record_of df1 df2 name1 name2 (taker obj1) (taker obj2)
          (get_withdrawal_fee self name2 quote) euro btc.
Proof.
  split.
  - intros H.
    destruct (returns_found self g df1 df2 o1 o2 r H)
      as (quote & n1 & n2 & e1 & e2 & euro & btc & Hf).
    exists quote, n1, n2, e1, e2, euro, btc. split; [exact Hf|].
    rewrite (found_returns self g df1 df2 o1 o2 _ _ _ _ _ _ _ Hf) in H.
    injection H as <-. reflexivity.
  - intros (quote & n1 & n2 & e1 & e2 & euro & btc & Hf & ->).
    apply found_returns. exact Hf.
Qed.

Lemma returns_exactly_when_found_witness :
  profitability_calculator calc (bound "kraken" "bitstamp")
    rowA rowB kraken bitstamp
  = Ok (record_of rowA rowB "kraken" "bitstamp" 0 0 None 1 (Some (1 # 6000))).
Proof.
  apply (returns_exactly_when_found calc (bound "kraken" "bitstamp")
           rowA rowB kraken bitstamp).
  exists "EUR"%string, "kraken"%string, "bitstamp"%string, kraken, bitstamp,
    1%Q, (Some (1 # 6000)%Q).
  split; [|reflexivity].
  unfold found. split.
  - exists "BTC/EUR"%string, "BTC"%string. split; reflexivity.
  - repeat split; discriminate.
Defined.

(** The record of a successful call, with what was found. *)
Lemma returned_record (self : ArbitrageCalculator) (g : globals)
    (df1 df2 : Series.t) (o1 o2 : exchange) (r : profitability) :
  profitability_calculator self g df1 df2 o1 o2 = Ok r ->
  exists quote name1 name2 obj1 obj2 euro btc,
    found self g df1 quote name1 name2 obj1 obj2 euro btc /\
    r = record_of df1 df2 name1 name2 (taker obj1) (taker obj2)
          (get_withdrawal_fee self name2 quote) euro btc.
Proof.
  intros H.
  destruct (returns_found self g df1 df2 o1 o2 r H)
    as (quote & n1 & n2 & e1 & e2 & euro & btc & Hf).
  exists quote, n1, n2, e1, e2, euro, btc. split; [exact Hf|].
  rewrite (found_returns self g df1 df2 o1 o2 _ _ _ _ _ _ _ Hf) in H.
  injection H as <-. reflexivity.
Qed.

(** X6. When the sell exchange lists a withdrawal fee for the quote
    currency, the net profit in euro is the gross profit in euro less the
    fee converted at the quote's euro rate; it does not exceed the gross
    profit when that converted fee is not negative. *)
Theorem net_is_gross_less_fee (self : ArbitrageCalculator) (g : globals)
    (df1 df2 : Series.t) (o1 o2 : exchange) (r : profitability)
    (quote name1 name2 : string) (obj1 obj2 : exchange)
    (euro : Q) (btc : option Q) (fee : Q) :
  profitability_calculator self g df1 df2 o1 o2 = Ok r ->
  found self g df1 quote name1 name2 obj1 obj2 euro btc ->
  get_withdrawal_fee self name2 quote = Some fee ->
  exists net,
    net_profit_euro r = Some net /\
    (net == gross_profit_euro r - fee * euro)%Q /\
    ((0 <= fee * euro)%Q -> (net <= gross_profit_euro r)%Q).
Proof.
  intros H Hf Hfee.
  rewrite (found_returns self g df1 df2 o1 o2 _ _ _ _ _ _ _ Hf) in H.
  injection H as <-. unfold record_of. rewrite Hfee.
  cbn [net_profit_euro gross_profit_euro].
  eexists. split; [reflexivity|].
  assert (E : forall gained paid : Q,
             ((gained - fee - paid) * euro
              == (gained - paid) * euro - fee * euro)%Q)
    by (intros; ring).
  split; [apply E|].
  intros Hpos. rewrite E.
  rewrite <- (Qplus_0_r ((_ - _) * euro)) at 2.
  unfold Qminus. apply Qplus_le_r.
  apply Qopp_le_compat in Hpos. exact Hpos.
Qed.

Lemma net_is_gross_less_fee_witness :
  exists r net,
    profitability_calculator calc (bound "bitstamp" "kraken")
      rowA rowB kraken bitstamp = Ok r /\
    net_profit_euro r = Some net /\
    (net == gross_profit_euro r - (1 # 2) * 1)%Q.
Proof.
  eexists.
  destruct (net_is_gross_less_fee calc (bound "bitstamp" "kraken")
              rowA rowB kraken bitstamp _
              "EUR" "bitstamp" "kraken" bitstamp kraken 1
              (Some (1 # 6000)) (1 # 2) eq_refl)
    as (net & Hn & He & _).
  - unfold found. split.
    + exists "BTC/EUR"%string, "BTC"%string. split; reflexivity.
    + repeat split; discriminate.
  - reflexivity.
  - exists net. repeat split; assumption.
Defined.

(** X7. The gross profit is the trade volume times a margin per unit that
    does not depend on the volumes, times the euro rate, so it is linear in
    the volume; the gross percentage is not a number exactly when the
    outlay [volume * ask] is zero. *)
Theorem gross_profit_linear_in_volume (self : ArbitrageCalculator)
    (g : globals) (df1 df2 : Series.t) (o1 o2 : exchange)
    (r : profitability)
    (quote name1 name2 : string) (obj1 obj2 : exchange)
    (euro : Q) (btc : option Q) :
  profitability_calculator self g df1 df2 o1 o2 = Ok r ->
  found self g df1 quote name1 name2 obj1 obj2 euro btc ->
  let margin :=
    ((1 - taker obj1) * Series.bid_price df2 * (1 - taker obj2)
     - Series.ask_price df1)%Q in
  (gross_profit_euro r == max_volume df1 df2 * margin * euro)%Q /\
  (percent_gross_profit r = NonFinite <->
   (max_volume df1 df2 * Series.ask_price df1 == 0)%Q).
Proof.
  intros H Hf.
  rewrite (found_returns self g df1 df2 o1 o2 _ _ _ _ _ _ _ Hf) in H.
  injection H as <-. unfold record_of.
  cbn [gross_profit_euro percent_gross_profit]. cbn zeta. split; [ring|].
  unfold np_div.
  destruct (Qeq_bool (max_volume df1 df2 * Series.ask_price df1) 0) eqn:E;
    cbn [np_mul].
  - apply Qeq_bool_iff in E. split; auto.
  - split; [discriminate|]. intros E'. apply Qeq_bool_iff in E'. congruence.
Qed.

Lemma gross_profit_linear_in_volume_witness :
  exists r,
    profitability_calculator calc (bound "kraken" "bitstamp")
      bigA bigB kraken bitstamp = Ok r /\
    (gross_profit_euro r == 2000 * (99 - 101) * 1)%Q.
Proof.
  eexists. split; [reflexivity|].
  destruct (gross_profit_linear_in_volume calc (bound "kraken" "bitstamp")
              bigA bigB kraken bitstamp _
              "EUR" "kraken" "bitstamp" kraken bitstamp 1
              (Some (1 # 6000)) eq_refl) as [Hg _].
  - unfold found. split.
    + exists "BTC/EUR"%string, "BTC"%string. split; reflexivity.
    + repeat split; discriminate.
  - rewrite Hg. vm_compute. reflexivity.
Defined.

(** *** The comparison of the two directions *)

Lemma compare_Ok_inv (g : globals) (df1 df2 : Series.t) (o1 o2 : exchange)
    (r : profitability) :
  compare_arbitrage_profitability g df1 df2 o1 o2 = Ok r ->
  exists self r1 r2,
    g_self g = Some self /\
    profitability_calculator self g df1 df2 o1 o2 = Ok r1 /\
    profitability_calculator self g df2 df1 o2 o1 = Ok r2 /\
    r = (if Qgtb (gross_profit_euro r1) (gross_profit_euro r2)
         then r1 else r2).
Proof.
  unfold compare_arbitrage_profitability. intros H.
  bind_inv H self Hself. apply or_raise_Ok_inv in Hself.
  bind_inv H r1 H1. bind_inv H r2 H2. injection H as <-.
  exists self, r1, r2. auto.
Qed.

Lemma midpoint_between (a b : Z) :
  Z.min a b <= (a + b) / 2 <= Z.max a b.
Proof.
  pose proof (Z.div_mod (a + b) 2 ltac:(lia)).
  pose proof (Z.mod_pos_bound (a + b) 2 ltac:(lia)). lia.
Qed.

(** X8. Whichever direction wins, the record that
    [compare_arbitrage_profitability] returns carries the global names
    [exchange_name1] and [exchange_name2] as its buy and its sell exchange,
    in that order, and the midpoint of the two snapshots' timestamps, which
    lies between them: none of these fields tells the direction. *)
Theorem returned_record_is_direction_blind (g : globals)
    (df1 df2 : Series.t) (o1 o2 : exchange) (r : profitability) :
  compare_arbitrage_profitability g df1 df2 o1 o2 = Ok r ->
  g_exchange_name1 g = Some (buy_exchange r) /\
  g_exchange_name2 g = Some (sell_exchange r) /\
  timestamp r = (Series.timestamp df1 + Series.timestamp df2) / 2 /\
  Z.min (Series.timestamp df1) (Series.timestamp df2) <= timestamp r
  <= Z.max (Series.timestamp df1) (Series.timestamp df2).
Proof.
  intros H. apply compare_Ok_inv in H.
  destruct H as (self & r1 & r2 & _ & H1 & H2 & ->).
  apply returned_record in H1. apply returned_record in H2.
  destruct H1 as (q1 & a1 & b1 & x1 & y1 & eu1 & bt1 & F1 & ->).
  destruct H2 as (q2 & a2 & b2 & x2 & y2 & eu2 & bt2 & F2 & ->).
  pose proof F1 as (_ & G1 & G2 & _). pose proof F2 as (_ & G1' & G2' & _).
  pose proof (midpoint_between (Series.timestamp df1) (Series.timestamp df2)).
  destruct (Qgtb _ _); unfold record_of;
    cbn [buy_exchange sell_exchange timestamp].
  - auto.
  - rewrite (Z.add_comm (Series.timestamp df2)). auto.
Qed.

Lemma returned_record_is_direction_blind_witness :
  exists r,
    compare_arbitrage_profitability (bound "kraken" "bitstamp")
      bigB bigA bitstamp kraken = Ok r /\
    buy_exchange r = "kraken"%string /\ timestamp r = 1200.
Proof.
  eexists. split; [reflexivity|].
  destruct (returned_record_is_direction_blind (bound "kraken" "bitstamp")
              bigB bigA bitstamp kraken _ eq_refl) as (_ & _ & Ht & _).
  split; [reflexivity | exact Ht].
Defined.

(** X9. Up to ties the comparison does not depend on the order in which the
    two rows are given, nor on the exchange objects passed: when the two
    directions' gross profits differ, both orders return the same record;
    when they are equal, each order returns the record of its own second
    direction. *)
Theorem compare_swapped (g : globals) (self : ArbitrageCalculator)
    (df1 df2 : Series.t) (o1 o2 o1' o2' : exchange)
    (r1 r2 : profitability) :
  g_self g = Some self ->
  profitability_calculator self g df1 df2 o1 o2 = Ok r1 ->
  profitability_calculator self g df2 df1 o2 o1 = Ok r2 ->
  (~ (gross_profit_euro r1 == gross_profit_euro r2)%Q ->
   compare_arbitrage_profitability g df1 df2 o1 o2
   = compare_arbitrage_profitability g df2 df1 o1' o2') /\
  ((gross_profit_euro r1 == gross_profit_euro r2)%Q ->
   compare_arbitrage_profitability g df1 df2 o1 o2 = Ok r2 /\
   compare_arbitrage_profitability g df2 df1 o1' o2' = Ok r1).
Proof.
  intros Hself H1 H2.
  assert (H1' : profitability_calculator self g df1 df2 o2' o1' = Ok r1)
    by exact H1.
  assert (H2' : profitability_calculator self g df2 df1 o1' o2' = Ok r2)
    by exact H2.
  unfold compare_arbitrage_profitability. rewrite Hself.
  cbn [or_raise bind]. rewrite H1, H2, H1', H2'. cbn [bind].
  unfold Qgtb.
  destruct (Qltb (gross_profit_euro r2) (gross_profit_euro r1)) eqn:A;
    destruct (Qltb (gross_profit_euro r1) (gross_profit_euro r2)) eqn:B;
    try apply Qltb_lt in A; try apply Qltb_ge in A;
    try apply Qltb_lt in B; try apply Qltb_ge in B.
  - exfalso. apply (Qlt_irrefl (gross_profit_euro r1)).
    eapply Qlt_trans; eassumption.
  - split; [reflexivity|]. intros E. rewrite E in A.
    exfalso. apply (Qlt_irrefl _ A).
  - split; [reflexivity|]. intros E. rewrite E in B.
    exfalso. apply (Qlt_irrefl _ B).
  - split; [|auto]. intros N. exfalso. apply N.
    apply Qle_antisym; assumption.
Qed.

Lemma compare_swapped_witness :
  compare_arbitrage_profitability (bound "kraken" "bitstamp")
    bigA bigB kraken bitstamp
  = compare_arbitrage_profitability (bound "kraken" "bitstamp")
      bigB bigA kraken kraken.
Proof.
  apply (proj1 (compare_swapped (bound "kraken" "bitstamp") calc bigA bigB
                  kraken bitstamp kraken kraken _ _ eq_refl eq_refl eq_refl)).
  vm_compute. discriminate.
Defined.

(** *** The rates [load_market_values] can load *)

Lemma lookup_dict_set {V : Type} (q k : string) (v : V)
    (d : list (string * V)) :
  lookup q (dict_set k v d)
  = if String.eqb q k then Some v else lookup q d.
Proof.
  induction d as [|[k' v'] d IH]; cbn [dict_set lookup].
  - reflexivity.
  - destruct (String.eqb k k') eqn:E; cbn [lookup].
    + apply String.eqb_eq in E. subst k'.
      destruct (String.eqb q k); reflexivity.
    + rewrite IH. destruct (String.eqb q k') eqn:E'; [|reflexivity].
      apply String.eqb_eq in E'. subst k'.
      destruct (String.eqb q k) eqn:E''; [|reflexivity].
      apply String.eqb_eq in E''. subst k.
      rewrite String.eqb_refl in E. discriminate.
Qed.

Lemma load_euro_value_keys (last : string -> string -> result Q)
    (d : list (string * Q)) (symbol exchange_name q : string) :
  lookup q (load_euro_value last d (symbol, exchange_name)) <> None ->
  nth_error (split "/" symbol) 0 = Some q \/ lookup q d <> None.
Proof.
  unfold load_euro_value.
  destruct (last symbol exchange_name) as [v| |]; cbn [bind]; auto.
  destruct (nth_error (split "/" symbol) 0) as [k|]; cbn [or_raise bind];
    auto.
  rewrite lookup_dict_set. destruct (String.eqb q k) eqn:E; auto.
  apply String.eqb_eq in E. subst k. auto.
Qed.

Lemma load_btc_value_keys (last : string -> string -> result Q)
    (d : list (string * Q)) (symbol exchange_name q : string) :
  lookup q (load_btc_value last d (symbol, exchange_name)) <> None ->
  nth_error (split "/" symbol) 0 = Some q \/ lookup q d <> None.
Proof.
  unfold load_btc_value.
  destruct (last symbol exchange_name) as [v| |]; cbn [bind]; auto.
  destruct (if String.eqb "BTC/USDT" symbol
            then if Qeq_bool v 0 then Raise ZeroDivisionError
                 else Ok (1 / v)%Q
            else Ok v) as [w| |]; cbn [bind]; auto.
  destruct (nth_error (split "/" symbol) 0) as [k|]; cbn [or_raise bind];
    auto.
  rewrite lookup_dict_set. destruct (String.eqb q k) eqn:E; auto.
  apply String.eqb_eq in E. subst k. auto.
Qed.

Lemma loaded_euro_keys (last : string -> string -> result Q) (q : string) :
  lookup q (fst (load_market_values last)) <> None ->
  In q ["BTC"; "LTC"; "USDT"; "ETH"]%string.
Proof.
  unfold load_market_values. cbn [fst fold_left]. intros H.
  repeat (apply load_euro_value_keys in H;
          destruct H as [H|H];
          [cbn in H; injection H as <-; cbn; tauto|]).
  cbn in H. contradiction.
Qed.

Lemma loaded_btc_keys (last : string -> string -> result Q) (q : string) :
  lookup q (snd (load_market_values last)) <> None ->
  In q ["BTC"; "ETH"; "LTC"]%string.
Proof.
  unfold load_market_values. cbn [snd fold_left]. intros H.
  repeat (apply load_btc_value_keys in H;
          destruct H as [H|H];
          [cbn in H; injection H as <-; cbn; tauto|]).
  cbn in H. contradiction.
Qed.

(** The calculator after [load_config] and [load_market_values]. *)
Definition loaded (last : string -> string -> result Q)
    (exs : list (string * exchange)) : ArbitrageCalculator :=
  {| exchanges := exs;
     euro_values := fst (load_market_values last);
     btc_values := snd (load_market_values last) |}.

(** X10. With the rates as [load_market_values] loads them, whatever the
    tickers answer, [profitability_calculator] returns a record only for a
    symbol quoted in BTC, LTC or ETH: for every other quote currency (EUR,
    USD, USDT, ...) a rate is missing and the call raises. *)
Theorem only_crypto_quotes_are_priced
    (last : string -> string -> result Q) (exs : list (string * exchange))
    (g : globals) (df1 df2 : Series.t) (o1 o2 : exchange)
    (r : profitability) (symbol base quote : string) :
  nth_error (split "_" (Series.name df1)) 0 = Some symbol ->
  split "/" symbol = [base; quote] ->
  profitability_calculator (loaded last exs) g df1 df2 o1 o2 = Ok r ->
  In quote ["BTC"; "LTC"; "ETH"]%string.
Proof.
  intros Hsym Hsplit H. apply returns_found in H.
  destruct H as (q & n1 & n2 & e1 & e2 & euro & btc
                 & (s' & b' & Hs' & Hb') & _ & _ & _ & _ & Heuro & Hbtc).
  assert (s' = symbol) as -> by congruence.
  assert (q = quote) as -> by congruence.
  assert (He : lookup quote (euro_values (loaded last exs)) <> None)
    by congruence.
  apply loaded_euro_keys in He.
  destruct (String.eqb quote "BTC") eqn:E.
  - apply String.eqb_eq in E. subst quote. cbn. tauto.
  - destruct Hbtc as [Hsome Hb].
    assert (Hk : lookup quote (btc_values (loaded last exs)) <> None)
      by congruence.
    apply loaded_btc_keys in Hk. cbn in Hk, He |- *.
    destruct Hk as [<-|[<-|[<-|[]]]]; tauto.
Qed.

(** Tickers that all answer: 6000, 100, 1 and 400 euro, and so on. *)
Definition tickers (symbol exchange_name : string) : result Q :=
  if String.eqb symbol "BTC/EUR" then Ok 6000%Q
  else if String.eqb symbol "LTC/EUR" then Ok 100%Q
  else if String.eqb symbol "USDT/EUR" then Ok 1%Q
  else if String.eqb symbol "ETH/EUR" then Ok 400%Q
  else if String.eqb symbol "BTC/USDT" then Ok 6500%Q
  else if String.eqb symbol "ETH/BTC" then Ok (1 # 15)%Q
  else if String.eqb symbol "LTC/BTC" then Ok (1 # 60)%Q
  else Raise KeyError.

Definition ethA : Series.t := snapshot "ETH/BTC_kraken" 1000 101 1 100 1.

Lemma only_crypto_quotes_are_priced_witness :
  In "BTC"%string ["BTC"; "LTC"; "ETH"]%string /\
  profitability_calculator
    (loaded tickers [("kraken"%string, kraken); ("bitstamp"%string, bitstamp)])
    (bound "kraken" "bitstamp") rowA rowB kraken bitstamp
  = Raise KeyError.
Proof.
  split; [|reflexivity].
  refine (only_crypto_quotes_are_priced tickers
            [("kraken"%string, kraken); ("bitstamp"%string, bitstamp)]
            (bound "kraken" "bitstamp") ethA rowB kraken bitstamp
            _ "ETH/BTC" "ETH" "BTC" eq_refl eq_refl eq_refl).
Defined.

End ProfitabilitySpec.

(* ------------------------------------------------------------------ *)
(** ** Backtest Simulator: the series *)

Module BacktestSpec.
Import ArbitrageBacktester ArbitrageBacktesterSpec.

(** What one turn of the loop does to the three series. *)
Lemma loop_body_series (s s' : DataSelector) (p p' : profits_over_time Z) :
  loop_body (s, p) = Ok (s', p') ->
  exists r,
    row s = Some r /\
    time p' = time p ++ [seconds r] /\
    ((realized r = true /\
      profit p' = profit p ++ [capped_profit r] /\
      cumulative_profit p' = (cumulative_profit p + capped_profit r)%Q) \/
     (realized r = false /\
      profit p' = profit p /\
      cumulative_profit p' = cumulative_profit p)).
Proof.
  unfold loop_body, current_row. intros H.
  destruct (row s) as [r|]; [|discriminate].
  cbn [or_raise bind] in H. fold (realized r) in H.
  exists r. split; [reflexivity|].
  destruct (realized r).
  - destruct (get_next_row_after_time s waiting_time); try discriminate.
    cbn [bind] in H. injection H as <- <-. cbn. auto.
  - destruct (get_next_row s); try discriminate.
    cbn [bind] in H. injection H as <- <-. cbn. auto.
Qed.

Lemma realized_positive (r : Row) :
  realized r = true -> (0 < capped_profit r)%Q.
Proof. unfold realized, Qgtb, minimum_profit. apply Qltb_lt. Qed.

(** X11. The rows the loop evaluates stop two short of the end of the
    frame: the row under evaluation is always followed by at least two
    more, so the last two rows of a frame are never evaluated, and a frame
    of one or two rows is scanned without evaluating anything. *)
Theorem last_two_rows_never_evaluated (df : dataframe) :
  (forall s0 p0 st,
      get_next_row (init df) = Ok s0 ->
      steps (s0, p0) st ->
      finished (fst st) = false ->
      exists i r,
        row (fst st) = Some r /\
        nth_error (rows df) i = Some r /\
        (i + 2 < List.length (rows df))%nat) /\
  (forall direction,
      rows df <> [] ->
      (List.length (rows df) <= 2)%nat ->
      nth_error (split "_" (name df)) (2 + direction) <> None ->
      scan df direction = Ok no_profits).
Proof.
  split.
  - intros s0 p0 st H0 Hsteps F.
    pose proof (first_row_good df s0 H0) as Hg0.
    destruct (steps_good df _ _ Hsteps Hg0) as [[_ Hrow] _].
    destruct (Hrow F) as (H1 & H2 & r & Hr & Hn).
    exists (index (fst st) - 1)%nat, r. repeat split; try assumption. lia.
  - intros direction Hrows Hlen Hname. unfold scan.
    destruct (nth_error (split "_" (name df)) (2 + direction));
      [|contradiction].
    cbn [or_raise bind]. unfold get_next_row, loc.
    cbn [init full_dataframe index finished].
    destruct (rows df) as [|a [|b [|c l]]]; [contradiction| | |cbn in Hlen; lia];
      reflexivity.
Qed.

Lemma last_two_rows_never_evaluated_witness :
  scan frame1 0 = Ok no_profits /\
  exists s0 i r,
    get_next_row (init frame8) = Ok s0 /\
    row s0 = Some r /\ nth_error (rows frame8) i = Some r /\
    (i + 2 < 8)%nat.
Proof.
  destruct (last_two_rows_never_evaluated frame1) as [_ H1].
  destruct (last_two_rows_never_evaluated frame8) as [H8 _].
  split.
  - apply H1; [discriminate | cbn; lia | discriminate].
  - eexists.
    destruct (H8 _ no_profits _ eq_refl (steps_refl _) eq_refl)
      as (i & r & Hr & Hn & Hi).
    exists i, r. split; [reflexivity|]. auto.
Defined.

(** The bookkeeping the loop keeps. *)
Definition accounted (df : dataframe) (st : state) : Prop :=
  let '(s, p) := st in
  (cumulative_profit p == fold_right Qplus 0 (profit p))%Q /\
  Forall (fun x => (0 < x)%Q) (profit p) /\
  (List.length (profit p) <= List.length (time p))%nat /\
  (if finished s
   then (List.length (time p) + 2 <= List.length (rows df))%nat
        \/ time p = []
   else (List.length (time p) + 1 <= index s)%nat).

Lemma fold_right_Qplus_app (l : list Q) (x : Q) :
  (fold_right Qplus 0 (l ++ [x]) == fold_right Qplus 0 l + x)%Q.
Proof.
  induction l as [|a l IH]; cbn [app fold_right].
  - ring.
  - rewrite IH. ring.
Qed.

Lemma step_accounted (df : dataframe) (st st' : state) :
  good df (fst st) -> step st st' -> accounted df st -> accounted df st'.
Proof.
  intros Hg [F Hbody] Hacc.
  destruct (loop_body_good df st Hg F) as (r0 & st2 & _ & Hb & Hg' & Hi & _).
  rewrite Hbody in Hb. injection Hb as <-.
  destruct st as [s p], st' as [s' p']. cbn [fst] in *.
  destruct (loop_body_series s s' p p' Hbody) as (r & Hr & Ht & Hcases).
  unfold accounted in *. rewrite F in Hacc.
  destruct Hacc as (Hsum & Hpos & Hlen & Hidx).
  destruct Hg as [_ Hrow]. destruct (Hrow F) as (_ & Hend & _).
  assert (Htime :
            if finished s'
            then (List.length (time p') + 2 <= List.length (rows df))%nat
                 \/ time p' = []
            else (List.length (time p') + 1 <= index s')%nat).
  { rewrite Ht, length_app. cbn [List.length].
    destruct (finished s') eqn:F'.
    - left. lia.
    - specialize (Hi eq_refl). lia. }
  destruct Hcases as [(Hre & Hp & Hc) | (Hre & Hp & Hc)];
    rewrite Hp, Hc, Ht, ?length_app; cbn [List.length].
  - split; [rewrite fold_right_Qplus_app, Hsum; reflexivity|].
    split; [apply Forall_app; split;
            [exact Hpos | constructor; [apply realized_positive; exact Hre
                                       | constructor]]|].
    split; [lia|]. rewrite Ht, length_app in Htime. exact Htime.
  - split; [exact Hsum|]. split; [exact Hpos|].
    split; [lia|]. rewrite Ht, length_app in Htime. exact Htime.
Qed.

Lemma steps_accounted (df : dataframe) (st st' : state) :
  steps st st' -> good df (fst st) -> accounted df st -> accounted df st'.
Proof.
  induction 1 as [st | st st1 st2 Hstep _ IH]; intros Hg Hacc.
  - exact Hacc.
  - apply IH.
    + destruct Hstep as [F Hbody].
      destruct (loop_body_good df st Hg F) as (r & st' & _ & Hb & Hg' & _).
      rewrite Hbody in Hb. injection Hb as <-. exact Hg'.
    + eapply step_accounted; eassumption.
Qed.

(** X12. The series a scan returns are consistent: the cumulative profit
    is the sum of the recorded profits, every recorded profit is strictly
    positive, there are at least as many times as profits (a time is
    recorded for every evaluated row, a profit only for a realized trade),
    and at most [len - 2] times. *)
Theorem scan_accounts (df : dataframe) (direction : nat)
    (p : profits_over_time Z) :
  scan df direction = Ok p ->
  (cumulative_profit p == fold_right Qplus 0 (profit p))%Q /\
  Forall (fun x => (0 < x)%Q) (profit p) /\
  (List.length (profit p) <= List.length (time p))%nat /\
  (List.length (time p) <= List.length (rows df) - 2)%nat.
Proof.
  unfold scan. intros H.
  apply bind_Ok_inv in H. destruct H as (b & _ & H).
  apply bind_Ok_inv in H. destruct H as (s0 & H0 & H).
  apply bind_Ok_inv in H. destruct H as ([s' p'] & Hw & H).
  injection H as <-.
  apply while_not_finished_steps in Hw. destruct Hw as [Hsteps Hfin].
  pose proof (first_row_good df s0 H0) as Hg0.
  assert (Hacc0 : accounted df
                    (s0, {| profit := []; time := [];
                            cumulative_profit := 0 |})).
  { unfold accounted. cbn. split; [reflexivity|]. split; [constructor|].
    split; [lia|]. destruct (finished s0) eqn:F0; [right; reflexivity|].
    destruct Hg0 as [_ Hrow]. destruct (Hrow F0) as (H1 & _). lia. }
  pose proof (steps_accounted df _ _ Hsteps Hg0 Hacc0) as Hacc.
  unfold accounted in Hacc. cbn [fst] in Hfin. rewrite Hfin in Hacc.
  destruct Hacc as (Hsum & Hpos & Hlen & Htime).
  repeat split; try assumption.
  destruct Htime as [Htime | ->]; [lia | cbn; lia].
Qed.

Lemma scan_accounts_witness :
  exists p,
    scan frame8 0 = Ok p /\
    (cumulative_profit p == 3000)%Q /\
    List.length (profit p) = 3%nat /\ List.length (time p) = 4%nat.
Proof.
  eexists. split; [reflexivity|].
  destruct (scan_accounts frame8 0 _ eq_refl) as (Hsum & _ & _ & _).
  split; [rewrite Hsum; vm_compute; reflexivity|].
  split; reflexivity.
Defined.

(** X13. As records are processed the cumulative profit never decreases,
    and the profit and time series only grow at their end. *)
Theorem cumulative_profit_never_decreases (st st' : state) :
  steps st st' ->
  (cumulative_profit (snd st) <= cumulative_profit (snd st'))%Q /\
  (exists more, profit (snd st') = profit (snd st) ++ more) /\
  (exists more, time (snd st') = time (snd st) ++ more).
Proof.
  induction 1 as [st | [s p] [s1 p1] st2 [_ Hbody] _ IH].
  - split; [apply Qle_refl|].
    split; exists []; rewrite app_nil_r; reflexivity.
  - destruct IH as (Hle & [mp Hp] & [mt Ht]).
    destruct (loop_body_series s s1 p p1 Hbody) as (r & _ & Ht1 & Hcases).
    cbn [snd] in *.
    split; [|split].
    + eapply Qle_trans; [|exact Hle].
      destruct Hcases as [(Hre & _ & ->) | (_ & _ & ->)]; [|apply Qle_refl].
      apply realized_positive in Hre.
      rewrite <- (Qplus_0_r (cumulative_profit p)) at 1.
      apply Qplus_le_r. apply Qlt_le_weak. exact Hre.
    + destruct Hcases as [(_ & Hp1 & _) | (_ & Hp1 & _)];
        rewrite Hp, Hp1; [rewrite <- app_assoc|]; eauto.
    + rewrite Ht, Ht1, <- app_assoc. eauto.
Qed.

Lemma cumulative_profit_never_decreases_witness :
  exists s0 st',
    get_next_row (init frame8) = Ok s0 /\
    loop_body (s0, no_profits) = Ok st' /\
    (0 <= cumulative_profit (snd st'))%Q.
Proof.
  eexists. eexists. split; [reflexivity|].
  match goal with
  | |- loop_body (?s, _) = _ /\ _ => set (s0 := s)
  end.
  split; [reflexivity|].
  refine (proj1 (cumulative_profit_never_decreases (s0, no_profits) _ _)).
  eapply steps_cons; [split; reflexivity | apply steps_refl].
Defined.

(** *** Times in order *)

Lemma round_half_even_div_mono (n m d : Z) :
  0 < d -> n <= m -> round_half_even_div n d <= round_half_even_div m d.
Proof.
  intros Hd Hnm. unfold round_half_even_div.
  pose proof (Z.div_mod n d ltac:(lia)) as Hn.
  pose proof (Z.div_mod m d ltac:(lia)) as Hm.
  pose proof (Z.mod_pos_bound n d Hd) as Rn.
  pose proof (Z.mod_pos_bound m d Hd) as Rm.
  pose proof (Z.div_le_mono n m d Hd Hnm) as Hq.
  set (q1 := n / d) in *. set (r1 := n mod d) in *.
  set (q2 := m / d) in *. set (r2 := m mod d) in *.
  destruct (Z.eq_dec q1 q2) as [E|E].
  - rewrite <- E in *. assert (r1 <= r2) by lia.
    destruct (2 * r1 <? d) eqn:A1; destruct (2 * r2 <? d) eqn:A2;
      destruct (d <? 2 * r1) eqn:B1; destruct (d <? 2 * r2) eqn:B2;
      destruct (Z.even q1);
      try apply Z.ltb_lt in A1; try apply Z.ltb_ge in A1;
      try apply Z.ltb_lt in A2; try apply Z.ltb_ge in A2;
      try apply Z.ltb_lt in B1; try apply Z.ltb_ge in B1;
      try apply Z.ltb_lt in B2; try apply Z.ltb_ge in B2; lia.
  - assert (q1 + 1 <= q2) by lia.
    destruct (2 * r1 <? d); destruct (2 * r2 <? d);
      destruct (d <? 2 * r1); destruct (d <? 2 * r2);
      destruct (Z.even q1); destruct (Z.even q2); lia.
Qed.

Lemma seconds_mono (r r' : Row) :
  timestamp r <= timestamp r' -> seconds r <= seconds r'.
Proof.
  intros H. rewrite !seconds_eq. apply round_half_even_div_mono; lia.
Qed.

Lemma StronglySorted_snoc (l : list Z) (x : Z) :
  StronglySorted Z.le l -> Forall (fun t => t <= x) l ->
  StronglySorted Z.le (l ++ [x]).
Proof.
  induction l as [|a l IH]; intros Hs Hall; cbn [app].
  - repeat constructor.
  - apply StronglySorted_inv in Hs. destruct Hs as [Hs Ha].
    apply Forall_cons_iff in Hall. destruct Hall as [Hax Hall].
    constructor; [apply IH; assumption|].
    apply Forall_app. split; [exact Ha | constructor; [exact Hax|constructor]].
Qed.

(** The recorded times are in order and none is later than the time of the
    row under evaluation. *)
Definition timed (st : state) : Prop :=
  StronglySorted Z.le (time (snd st)) /\
  (finished (fst st) = false ->
   forall r, row (fst st) = Some r ->
             Forall (fun t => t <= seconds r) (time (snd st))).

Lemma step_timed (df : dataframe) (st st' : state) :
  nondecreasing (rows df) = true ->
  good df (fst st) -> step st st' -> timed st -> timed st'.
Proof.
  intros Hsorted Hg [F Hbody] [Hs Hall].
  destruct (loop_body_good df st Hg F) as (r0 & st2 & Hr0 & Hb & Hg' & Hi & _).
  rewrite Hbody in Hb. injection Hb as <-.
  destruct st as [s p], st' as [s' p']. cbn [fst snd] in *.
  destruct (loop_body_series s s' p p' Hbody) as (r & Hr & Ht & _).
  rewrite Hr in Hr0. injection Hr0 as <-.
  specialize (Hall F r Hr).
  unfold timed. cbn [fst snd]. rewrite Ht. split.
  - apply StronglySorted_snoc; assumption.
  - intros F' r' Hr'. specialize (Hi F').
    destruct Hg as [_ Hrow]. destruct (Hrow F) as (H1 & _ & r1 & Hr1 & Hn).
    destruct Hg' as [_ Hrow']. destruct (Hrow' F') as (_ & _ & r2 & Hr2 & Hn').
    assert (r1 = r) as -> by congruence.
    assert (r2 = r') as -> by congruence.
    assert (Hle : seconds r <= seconds r').
    { apply seconds_mono.
      apply (nondecreasing_nth (rows df) Hsorted
               (index s - 1) (index s' - 1)); [lia | exact Hn | exact Hn']. }
    apply Forall_app. split.
    + eapply Forall_impl; [|exact Hall]. intros t Htr. cbn beta in *. lia.
    + constructor; [exact Hle | constructor].
Qed.

Lemma steps_timed (df : dataframe) (st st' : state) :
  nondecreasing (rows df) = true ->
  steps st st' -> good df (fst st) -> timed st -> timed st'.
Proof.
  intros Hsorted. induction 1 as [st | st st1 st2 Hstep _ IH]; intros Hg Ht.
  - exact Ht.
  - apply IH.
    + destruct Hstep as [F Hbody].
      destruct (loop_body_good df st Hg F) as (r & st' & _ & Hb & Hg' & _).
      rewrite Hbody in Hb. injection Hb as <-. exact Hg'.
    + eapply step_timed; eassumption.
Qed.

(** X14. On a frame in non-decreasing order of timestamp the recorded
    times are in non-decreasing order as well. *)
Theorem scan_times_in_order (df : dataframe) (direction : nat)
    (p : profits_over_time Z) :
  nondecreasing (rows df) = true ->
  scan df direction = Ok p ->
  StronglySorted Z.le (time p).
Proof.
  intros Hsorted H. unfold scan in H.
  apply bind_Ok_inv in H. destruct H as (b & _ & H).
  apply bind_Ok_inv in H. destruct H as (s0 & H0 & H).
  apply bind_Ok_inv in H. destruct H as ([s' p'] & Hw & H).
  injection H as <-.
  apply while_not_finished_steps in Hw. destruct Hw as [Hsteps _].
  pose proof (first_row_good df s0 H0) as Hg0.
  apply (steps_timed df _ _ Hsorted Hsteps Hg0).
  split; cbn [fst snd time]; [constructor|]. intros _ r _. constructor.
Qed.

Lemma scan_times_in_order_witness :
  StronglySorted Z.le [0; 5400; 20000; 30000].
Proof.
  apply (scan_times_in_order frame8 0
           {| profit := [(1 * 1000)%Q; (1 * 1000)%Q; (1 * 1000)%Q];
              time := [0; 5400; 20000; 30000];
              cumulative_profit := (0 + 1 * 1000 + 1 * 1000 + 1 * 1000)%Q |});
    reflexivity.
Defined.

(** *** Minutes *)

Lemma round_half_even_div_exact (d m : Z) :
  0 < d -> round_half_even_div (d * m) d = m.
Proof.
  intros Hd. unfold round_half_even_div.
  rewrite (Z.mul_comm d m), Z.div_mul, Z.mod_mul by lia.
  destruct (2 * 0 <? d) eqn:E; [reflexivity|].
  apply Z.ltb_ge in E. lia.
Qed.

Lemma minutes_eq (d : Z) :
  py_round (inject_Z d / 60) 2
  = (inject_Z (round_half_even_div (d * 1 * 100) 60) / inject_Z 100)%Q.
Proof. reflexivity. Qed.

Lemma minutes_exact (k : Z) :
  (py_round (inject_Z (60 * k) / 60) 2 == inject_Z k)%Q.
Proof.
  rewrite minutes_eq.
  replace (60 * k * 1 * 100) with (60 * (100 * k)) by ring.
  rewrite round_half_even_div_exact by lia.
  unfold Qeq, Qdiv, Qmult, Qinv, inject_Z. cbn [Qnum Qden]. lia.
Qed.

Lemma minutes_nonneg (d : Z) :
  0 <= d -> (0 <= py_round (inject_Z d / 60) 2)%Q.
Proof.
  intros Hd. rewrite minutes_eq.
  assert (H : 0 <= round_half_even_div (d * 1 * 100) 60).
  { rewrite <- (round_half_even_div_0 60) by lia.
    apply round_half_even_div_mono; lia. }
  unfold Qle, Qdiv, Qmult, Qinv, inject_Z. cbn [Qnum Qden]. lia.
Qed.

(** X15. [convert_time_to_minutes] raises IndexError on the empty list and
    on any other list returns a list of the same length in which a time a
    whole number [k] of minutes after the first becomes exactly [k] (the
    first itself becomes 0) and no time at or after the first becomes
    negative. *)
Theorem convert_time_to_minutes_elapsed (time_list : list Z) :
  (time_list = [] -> convert_time_to_minutes time_list = Raise IndexError) /\
  (forall t0 rest,
      time_list = t0 :: rest ->
      exists minutes,
        convert_time_to_minutes time_list = Ok minutes /\
        List.length minutes = List.length time_list /\
        (forall i k,
            nth_error time_list i = Some (t0 + 60 * k) ->
            exists x, nth_error minutes i = Some x /\ (x == inject_Z k)%Q) /\
        (forall i t,
            nth_error time_list i = Some t -> t0 <= t ->
            exists x, nth_error minutes i = Some x /\ (0 <= x)%Q)).
Proof.
  split; [intros ->; reflexivity|].
  intros t0 rest ->. cbn [convert_time_to_minutes].
  eexists. split; [reflexivity|]. split; [apply length_map|].
  split.
  - intros i k Hi. rewrite nth_error_map, Hi. cbn [option_map].
    eexists. split; [reflexivity|].
    replace (t0 + 60 * k - t0) with (60 * k) by ring.
    apply minutes_exact.
  - intros i t Hi Ht. rewrite nth_error_map, Hi. cbn [option_map].
    eexists. split; [reflexivity|]. apply minutes_nonneg. lia.
Qed.

Lemma convert_time_to_minutes_elapsed_witness :
  exists minutes,
    convert_time_to_minutes [100; 5500; 43300] = Ok minutes /\
    exists x, nth_error minutes 2 = Some x /\ (x == inject_Z 720)%Q.
Proof.
  destruct (convert_time_to_minutes_elapsed [100; 5500; 43300]) as [_ H].
  destruct (H 100 [5500; 43300] eq_refl) as (minutes & Hm & _ & Hk & _).
  exists minutes. split; [exact Hm|]. apply (Hk 2%nat 720). reflexivity.
Defined.

(** *** The report *)



(** *** The jobs *)

Lemma skipn_nth_error {A : Type} (l : list A) :
  forall n x, nth_error l n = Some x -> skipn n l = x :: skipn (S n) l.
Proof.
  induction l as [|a l IH]; intros [|n] x H; cbn in H; try discriminate.
  - injection H as <-. reflexivity.
  - cbn [skipn]. rewrite (IH n x H). reflexivity.
Qed.

Lemma firstn_plus {A : Type} (a b : nat) :
  forall l : list A, firstn (a + b) l = firstn a l ++ firstn b (skipn a l).
Proof.
  induction a as [|a IH]; intros l; cbn [Nat.add firstn skipn app].
  - reflexivity.
  - destruct l as [|x l]; cbn [firstn skipn app].
    + destruct b; reflexivity.
    + rewrite IH. reflexivity.
Qed.

Lemma give_jobs_loop_firstn (files : list string) (thread_index : nat) :
  forall m k,
    fst (give_jobs_loop files thread_index (seq k m))
    = firstn m (skipn (thread_index * 4 + k) files) /\
    (snd (give_jobs_loop files thread_index (seq k m)) = None <->
     (thread_index * 4 + k + m <= List.length files)%nat \/ m = 0%nat).
Proof.
  induction m as [|m IH]; intros k; cbn [seq give_jobs_loop].
  - cbn. split; [reflexivity|]. split; auto.
  - destruct (nth_error files (thread_index * 4 + k)) as [f|] eqn:E.
    + destruct (IH (S k)) as [IH1 IH2].
      destruct (give_jobs_loop files thread_index (seq (S k) m))
        as [jobs e].
      cbn [fst snd] in *.
      rewrite (skipn_nth_error files _ f E). cbn [firstn].
      replace (S (thread_index * 4 + k))
        with (thread_index * 4 + S k)%nat by lia.
      rewrite IH1. split; [reflexivity|].
      assert (thread_index * 4 + k < List.length files)%nat
        by (apply nth_error_Some; congruence).
      rewrite IH2. split; intros [H'|H']; lia.
    + apply nth_error_None in E. cbn [fst snd].
      rewrite skipn_all2 by exact E. split; [reflexivity|].
      split; [discriminate|]. intros [H'|H']; [lia | discriminate].
Qed.

Lemma jobs_of_threads (files : list string) (n : nat) :
  List.concat (map (fun thread_index => fst (give_jobs files thread_index))
              (seq 0 n))
  = firstn (n * 4) files.
Proof.
  induction n as [|n IH].
  - reflexivity.
  - rewrite seq_S, map_app, concat_app, IH. cbn [map List.concat Nat.add].
    rewrite app_nil_r. unfold give_jobs.
    rewrite (proj1 (give_jobs_loop_firstn files n 4 0)).
    rewrite Nat.add_0_r.
    replace (S n * 4)%nat with (n * 4 + 4)%nat by lia.
    symmetry. apply firstn_plus.
Qed.

(** X17. Taken thread by thread, the 952 threads of [start_and_join_jobs]
    hand the first 3808 files of [files] to [put_to_text_files], each once
    and in order, four to a thread; a file beyond these is never
    processed.  A thread logs an IndexError exactly when [files] ends
    before its fourth file. *)
Theorem jobs_cover_first_3808_files (files : list string) :
  List.concat (map fst (start_and_join_jobs files)) = firstn 3808 files /\
  (forall thread_index,
      snd (give_jobs files thread_index) = None <->
      (thread_index * 4 + 4 <= List.length files)%nat).
Proof.
  split.
  - unfold start_and_join_jobs. rewrite map_map.
    apply (jobs_of_threads files 952).
  - intros thread_index. unfold give_jobs.
    rewrite (proj2 (give_jobs_loop_firstn files thread_index 4 0)). lia.
Qed.

End BacktestSpec.

(* ------------------------------------------------------------------ *)
(** ** File and frame names *)

Module NamingSpec.
Import ProcessData ArbitrageBacktester.

Local Open Scope string_scope.

(** The character [c] does not occur in [s]. *)
Fixpoint free_of (c : ascii) (s : string) : bool :=
  match s with
  | EmptyString => true
  | String a s' => negb (Ascii.eqb a c) && free_of c s'
  end.

Lemma free_of_cons (c a : ascii) (s : string) :
  free_of c (String a s) = true -> a <> c /\ free_of c s = true.
Proof.
  cbn [free_of]. intros H. apply andb_true_iff in H. destruct H as [H1 H2].
  apply negb_true_iff in H1. apply Ascii.eqb_neq in H1. auto.
Qed.

Lemma free_of_app (c : ascii) (s t : string) :
  free_of c (s ++ t) = free_of c s && free_of c t.
Proof.
  induction s as [|a s IH]; cbn [append free_of]; [reflexivity|].
  rewrite IH, andb_assoc. reflexivity.
Qed.

Lemma app_assoc_string (s t u : string) : (s ++ t) ++ u = s ++ t ++ u.
Proof.
  induction s as [|a s IH]; cbn [append]; [reflexivity|].
  rewrite IH. reflexivity.
Qed.

Lemma split_free (sep : ascii) (s : string) :
  free_of sep s = true -> split sep s = [s].
Proof.
  induction s as [|a s IH]; intros H; cbn [split]; [reflexivity|].
  apply free_of_cons in H. destruct H as [Ha Hs].
  apply Ascii.eqb_neq in Ha. rewrite Ha, (IH Hs). reflexivity.
Qed.

Lemma split_app (sep : ascii) (s t : string) :
  free_of sep s = true ->
  split sep (s ++ String sep t) = s :: split sep t.
Proof.
  induction s as [|a s IH]; intros H; cbn [append split].
  - rewrite Ascii.eqb_refl. reflexivity.
  - apply free_of_cons in H. destruct H as [Ha Hs].
    apply Ascii.eqb_neq in Ha. rewrite Ha, (IH Hs). reflexivity.
Qed.

Lemma replace_char_free (old new : ascii) (s : string) :
  free_of old s = true -> replace_char old new s = s.
Proof.
  induction s as [|a s IH]; intros H; cbn [replace_char]; [reflexivity|].
  apply free_of_cons in H. destruct H as [Ha Hs].
  apply Ascii.eqb_neq in Ha. rewrite Ha, (IH Hs). reflexivity.
Qed.

Lemma prefix_app (s t : string) : prefix s (s ++ t) = true.
Proof.
  induction s as [|a s IH]; cbn [append prefix].
  - destruct t; reflexivity.
  - destruct (ascii_dec a a); [exact IH | congruence].
Qed.

Lemma before_first_free (c : ascii) (sub s rest : string) :
  free_of c s = true ->
  before_first (String c sub) (s ++ String c (sub ++ rest)) = s.
Proof.
  induction s as [|a s IH]; intros H.
  - cbn [append]. unfold before_first. cbn [prefix].
    destruct (ascii_dec c c); [|congruence]. rewrite prefix_app.
    reflexivity.
  - apply free_of_cons in H. destruct H as [Ha Hs].
    cbn [append]. cbn [before_first prefix].
    destruct (ascii_dec c a) as [E|_]; [congruence|].
    rewrite (IH Hs). reflexivity.
Qed.

(** A component of a name: no [_], no [/], no [.]. *)
Definition plain (s : string) : Prop :=
  free_of "_" s = true /\ free_of "/" s = true /\ free_of "." s = true.

(** X18. For two frames named [base/quote_exchange1] and
    [base/quote_exchange2], [generate_final_dataframe_name] yields
    [base_quote_exchange1_exchange2]; the file [save_df_to_csv] writes it
    to is read back by [csv_to_df] under the same name, and the name field
    [backtest_results] reads for direction 0 is [exchange1], for
    direction 1 [exchange2]. *)
Theorem refined_name_round_trip (base quote exchange1 exchange2 : string) :
  plain base -> plain quote -> plain exchange1 -> plain exchange2 ->
  let name1 := base ++ "/" ++ quote ++ "_" ++ exchange1 in
  let name2 := base ++ "/" ++ quote ++ "_" ++ exchange2 in
  let refined := base ++ "_" ++ quote ++ "_" ++ exchange1 ++ "_" ++ exchange2 in
  generate_final_dataframe_name name1 name2 = Ok refined /\
  csv_to_df_name (save_df_to_csv_filename refined) = refined /\
  nth_error (split "_" refined) (2 + 0) = Some exchange1 /\
  nth_error (split "_" refined) (2 + 1) = Some exchange2.
Proof.
  intros (B1 & B2 & B3) (Q1 & Q2 & Q3) (E1 & E2 & E3) (F1 & F2 & F3).
  cbn zeta.
  assert (Hsym : free_of "_" (base ++ "/" ++ quote) = true).
  { rewrite !free_of_app, B1, Q1. reflexivity. }
  assert (Hn1 : split "_" (base ++ "/" ++ quote ++ "_" ++ exchange1)
                = [base ++ "/" ++ quote; exchange1]).
  { assert (E : base ++ "/" ++ quote ++ "_" ++ exchange1
                 = (base ++ "/" ++ quote) ++ String "_" exchange1)
      by (rewrite !app_assoc_string; reflexivity).
    rewrite E, (split_app "_" _ exchange1 Hsym), (split_free "_" _ E1).
    reflexivity. }
  assert (Hn2 : split "_" (base ++ "/" ++ quote ++ "_" ++ exchange2)
                = [base ++ "/" ++ quote; exchange2]).
  { assert (E : base ++ "/" ++ quote ++ "_" ++ exchange2
                 = (base ++ "/" ++ quote) ++ String "_" exchange2)
      by (rewrite !app_assoc_string; reflexivity).
    rewrite E, (split_app "_" _ exchange2 Hsym), (split_free "_" _ F1).
    reflexivity. }
  assert (Hbq : split "/" (base ++ "/" ++ quote) = [base; quote]).
  { change (base ++ "/" ++ quote) with (base ++ String "/" quote).
    rewrite (split_app "/" _ _ B2), (split_free "/" _ Q2). reflexivity. }
  assert (Hsplit :
            split "_" (base ++ "_" ++ quote ++ "_" ++ exchange1
                       ++ "_" ++ exchange2)
            = [base; quote; exchange1; exchange2]).
  { change (base ++ "_" ++ quote ++ "_" ++ exchange1 ++ "_" ++ exchange2)
      with (base ++ String "_" (quote ++ String "_"
                                  (exchange1 ++ String "_" exchange2))).
    rewrite (split_app "_" _ _ B1), (split_app "_" _ _ Q1),
      (split_app "_" _ _ E1), (split_free "_" _ F1). reflexivity. }
  split; [|split; [|split]].
  - unfold generate_final_dataframe_name. rewrite Hn1, Hn2.
    cbn [nth_error or_raise bind]. rewrite Hbq. cbn [join].
    rewrite !app_assoc_string. reflexivity.
  - unfold csv_to_df_name, save_df_to_csv_filename.
    rewrite replace_char_free
      by (rewrite !free_of_app, B2, Q2, E2, F2; reflexivity).
    match goal with
    | |- before_first _ (?n ++ _) = _ =>
        change (before_first (String "." "csv")
                  (n ++ String "." ("csv" ++ "")) = n)
    end.
    apply before_first_free.
    rewrite !free_of_app, B3, Q3, E3, F3. reflexivity.
  - rewrite Hsplit. reflexivity.
  - rewrite Hsplit. reflexivity.
Qed.

Lemma refined_name_round_trip_witness :
  generate_final_dataframe_name "BTC/EUR_kraken" "BTC/EUR_bitstamp"
  = Ok "BTC_EUR_kraken_bitstamp" /\
  csv_to_df_name (save_df_to_csv_filename "BTC_EUR_kraken_bitstamp")
  = "BTC_EUR_kraken_bitstamp" /\
  nth_error (split "_" "BTC_EUR_kraken_bitstamp") (2 + 0) = Some "kraken" /\
  nth_error (split "_" "BTC_EUR_kraken_bitstamp") (2 + 1) = Some "bitstamp".
Proof.
  apply (refined_name_round_trip "BTC" "EUR" "kraken" "bitstamp");
    repeat split; reflexivity.
Defined.

Lemma split_three (a b c : string) :
  free_of "_" a = true -> free_of "_" b = true -> free_of "_" c = true ->
  split "_" (a ++ "_" ++ b ++ "_" ++ c) = [a; b; c].
Proof.
  intros A B C.
  change (a ++ "_" ++ b ++ "_" ++ c)
    with (a ++ String "_" (b ++ String "_" c)).
  rewrite (split_app "_" _ _ A), (split_app "_" _ _ B), (split_free "_" _ C).
  reflexivity.
Qed.

(** X19. For raw files named [base_quote_exchange.csv], as the collector
    names them, [process_filename_pair] takes the whole third field,
    extension included, as the exchange: it looks the exchange object up
    under [exchange.csv] and raises KeyError when that key is absent; the
    refined frame is named [base_quote_exchange1.csv_exchange2.csv], and
    read back by [csv_to_df] its name is cut at the first [.csv] to
    [base_quote_exchange1], so that [backtest_results] for direction 1 finds
    no fourth field and raises IndexError. *)
Theorem csv_extension_stays_in_exchange_key
    (base quote exchange1 exchange2 : string) :
  plain base -> plain quote -> plain exchange1 -> plain exchange2 ->
  let filename1 := base ++ "_" ++ quote ++ "_" ++ exchange1 ++ ".csv" in
  let filename2 := base ++ "_" ++ quote ++ "_" ++ exchange2 ++ ".csv" in
  let name1 := (base ++ "/" ++ quote) ++ "_" ++ exchange1 ++ ".csv" in
  let name2 := (base ++ "/" ++ quote) ++ "_" ++ exchange2 ++ ".csv" in
  let refined :=
    (base ++ "_" ++ quote) ++ "_" ++ (exchange1 ++ ".csv") ++ "_"
    ++ exchange2 ++ ".csv" in
  process_filename_pair_names filename1 filename2
  = Ok (exchange1 ++ ".csv", exchange2 ++ ".csv", (name1, name2)) /\
  (forall (E : Type) (exchanges : list (string * E)),
      lookup (exchange1 ++ ".csv") exchanges = None ->
      process_filename_pair_objects exchanges filename1 filename2
      = Raise KeyError) /\
  generate_final_dataframe_name name1 name2 = Ok refined /\
  csv_to_df_name (save_df_to_csv_filename refined)
  = base ++ "_" ++ quote ++ "_" ++ exchange1 /\
  (forall g rs,
      backtest_results_in g
        {| name := base ++ "_" ++ quote ++ "_" ++ exchange1; rows := rs |} 1
      = Raise IndexError).
Proof.
  intros (B1 & B2 & B3) (Q1 & Q2 & Q3) (E1 & E2 & E3) (F1 & F2 & F3).
  cbn zeta.
  assert (X1 : free_of "_" (exchange1 ++ ".csv") = true)
    by (rewrite free_of_app, E1; reflexivity).
  assert (X2 : free_of "_" (exchange2 ++ ".csv") = true)
    by (rewrite free_of_app, F1; reflexivity).
  assert (Hsym : free_of "_" (base ++ "/" ++ quote) = true)
    by (rewrite !free_of_app, B1, Q1; reflexivity).
  assert (Hnames :
            process_filename_pair_names
              (base ++ "_" ++ quote ++ "_" ++ exchange1 ++ ".csv")
              (base ++ "_" ++ quote ++ "_" ++ exchange2 ++ ".csv")
            = Ok (exchange1 ++ ".csv", exchange2 ++ ".csv",
                  ((base ++ "/" ++ quote) ++ "_" ++ exchange1 ++ ".csv",
                   (base ++ "/" ++ quote) ++ "_" ++ exchange2 ++ ".csv"))).
  { unfold process_filename_pair_names.
    rewrite (split_three base quote _ B1 Q1 X1),
      (split_three base quote _ B1 Q1 X2).
    reflexivity. }
  split; [exact Hnames|]. split; [|split; [|split]].
  - intros E exchanges Hnone. unfold process_filename_pair_objects.
    rewrite Hnames. cbn [bind]. rewrite Hnone. reflexivity.
  - unfold generate_final_dataframe_name.
    change ((base ++ "/" ++ quote) ++ "_" ++ exchange1 ++ ".csv")
      with ((base ++ "/" ++ quote) ++ String "_" (exchange1 ++ ".csv")).
    change ((base ++ "/" ++ quote) ++ "_" ++ exchange2 ++ ".csv")
      with ((base ++ "/" ++ quote) ++ String "_" (exchange2 ++ ".csv")).
    rewrite !(split_app "_" _ _ Hsym), (split_free "_" _ X1),
      (split_free "_" _ X2).
    cbn [nth_error or_raise bind].
    change (base ++ "/" ++ quote) with (base ++ String "/" quote).
    rewrite (split_app "/" _ _ B2), (split_free "/" _ Q2). reflexivity.
  - unfold csv_to_df_name, save_df_to_csv_filename.
    rewrite replace_char_free
      by (rewrite !free_of_app, B2, Q2, E2, F2; reflexivity).
    match goal with
    | |- before_first _ ?whole = ?s =>
        assert (E : whole
                    = s ++ String "."
                        ("csv" ++ ("_" ++ exchange2 ++ ".csv" ++ ".csv")))
          by (rewrite !app_assoc_string; reflexivity);
        rewrite E
    end.
    apply (before_first_free "." "csv").
    rewrite !free_of_app, B3, Q3, E3. reflexivity.
  - intros g rs. unfold backtest_results_in, scan. cbn [name].
    rewrite (split_three base quote exchange1 B1 Q1 E1). reflexivity.
Qed.

Lemma csv_extension_stays_in_exchange_key_witness :
  process_filename_pair_objects
    [("kraken", 1%nat); ("bitstamp", 2%nat)]
    "BTC_EUR_kraken.csv" "BTC_EUR_bitstamp.csv"
  = Raise KeyError /\
  csv_to_df_name
    (save_df_to_csv_filename "BTC_EUR_kraken.csv_bitstamp.csv")
  = "BTC_EUR_kraken".
Proof.
  assert (Pb : plain "BTC") by (repeat split; reflexivity).
  assert (Pq : plain "EUR") by (repeat split; reflexivity).
  assert (P1 : plain "kraken") by (repeat split; reflexivity).
  assert (P2 : plain "bitstamp") by (repeat split; reflexivity).
  destruct (csv_extension_stays_in_exchange_key
              "BTC" "EUR" "kraken" "bitstamp" Pb Pq P1 P2)
    as (_ & Hkey & _ & Hname & _).
  split; [apply Hkey; reflexivity | exact Hname].
Defined.

(** *** Grouping the raw files *)

Lemma lookup_setdefault_append (s k v : string)
    (d : list (string * list string)) :
  lookup s (setdefault_append k v d)
  = if String.eqb s k
    then Some (match lookup k d with
               | Some vs => vs ++ [v]
               | None => [v]
               end)%list
    else lookup s d.
Proof.
  induction d as [|[k' vs] d IH]; cbn [setdefault_append lookup].
  - destruct (String.eqb s k); reflexivity.
  - destruct (String.eqb k k') eqn:E; cbn [lookup].
    + apply String.eqb_eq in E. subst k'.
      destruct (String.eqb s k); reflexivity.
    + rewrite IH. destruct (String.eqb s k') eqn:E'.
      * apply String.eqb_eq in E'. subst k'.
        destruct (String.eqb s k) eqn:E''; [|reflexivity].
        apply String.eqb_eq in E''. subst k.
        rewrite String.eqb_refl in E. discriminate.
      * reflexivity.
Qed.

(** The symbol [get_symbols_and_filenames] files a name under. *)
Definition symbol_of (file : string) : string :=
  join "/" (firstn 2 (split "_" file)).

(** Adding the files [l] to what the dictionary holds for a key. *)
Definition extended (o : option (list string)) (l : list string)
  : option (list string) :=
  match l with
  | [] => o
  | _ :: _ => Some (match o with Some vs => vs ++ l | None => l end)%list
  end.

Lemma fold_setdefault_append (s : string) (files : list string) :
  forall d,
    lookup s
      (fold_left
         (fun acc file => setdefault_append (symbol_of file) file acc)
         files d)
    = extended (lookup s d)
        (filter (fun f => String.eqb s (symbol_of f)) files).
Proof.
  induction files as [|f files IH]; intros d; cbn [fold_left filter].
  - reflexivity.
  - rewrite IH, lookup_setdefault_append.
    destruct (String.eqb s (symbol_of f)) eqn:E.
    + apply String.eqb_eq in E. subst s.
      destruct (lookup (symbol_of f) d) as [vs|];
        destruct (filter _ files); cbn [extended app];
        rewrite <- ?app_assoc; reflexivity.
    + reflexivity.
Qed.

Lemma combinations2_length {A : Type} (l : list A) :
  (2 * List.length (combinations2 l)
   = List.length l * (List.length l - 1))%nat.
Proof.
  induction l as [|x l IH]; cbn [combinations2 List.length]; [reflexivity|].
  rewrite length_app, length_map. nia.
Qed.

(** X20. [get_symbols_and_filenames] files every listed name that does not
    contain [orderbook] under the symbol made of its first two [_]-fields,
    keeping the order of the listing and losing none; for a symbol with
    such files [get_exchange_filename_pairs] yields their [n (n - 1) / 2]
    pairs, for any other symbol it raises KeyError. *)
Theorem files_grouped_by_symbol (listing : list string) (symbol : string) :
  let files :=
    filter (fun f => negb (contains "orderbook" f)
                     && String.eqb symbol (symbol_of f)) listing in
  lookup symbol (get_symbols_and_filenames listing)
  = match files with [] => None | _ :: _ => Some files end /\
  get_exchange_filename_pairs symbol (get_symbols_and_filenames listing)
  = match files with
    | [] => Raise KeyError
    | _ :: _ => Ok (combinations2 files)
    end /\
  (2 * List.length (combinations2 files)
   = List.length files * (List.length files - 1))%nat.
Proof.
  cbn zeta.
  assert (H : lookup symbol (get_symbols_and_filenames listing)
              = match
                  filter (fun f => negb (contains "orderbook" f)
                                   && String.eqb symbol (symbol_of f))
                         listing
                with
                | [] => None
                | (_ :: _) as files => Some files
                end).
  { unfold get_symbols_and_filenames.
    change (fun (symbols_and_filenames : list (string * list string))
                (file : string) =>
              let symbol0 := join "/" (firstn 2 (split "_" file)) in
              setdefault_append symbol0 file symbols_and_filenames)
      with (fun acc file => setdefault_append (symbol_of file) file acc).
    rewrite fold_setdefault_append. cbn [lookup].
    assert (E : forall l : list string,
               filter (fun f => String.eqb symbol (symbol_of f))
                 (filter (fun f => negb (contains "orderbook" f)) l)
               = filter (fun f => negb (contains "orderbook" f)
                                  && String.eqb symbol (symbol_of f)) l).
    { induction l as [|f l IHl]; cbn [filter]; [reflexivity|].
      destruct (negb (contains "orderbook" f)); cbn [filter andb];
        rewrite IHl; reflexivity. }
    rewrite E. destruct (filter _ listing); reflexivity. }
  split; [rewrite H; destruct (filter _ listing); reflexivity|].
  split; [|apply combinations2_length].
  unfold get_exchange_filename_pairs. rewrite H.
  destruct (filter _ listing); reflexivity.
Qed.

End NamingSpec.

(* ------------------------------------------------------------------ *)
(** ** Snapshot Aggregator: retries *)

Module AggregatorSpec.
Import OrderbookHdf.

Section Retries.
Variable fetch : nat -> result orderbook.

(** The request of attempt [k] fails. *)
Definition fails (k : nat) : Prop := forall ob, fetch k <> Ok ob.

Lemma fetch_orders_safely_from_tries (fuel : nat) :
  forall attempt,
    (5 - attempt <= fuel)%nat ->
    exists book slept,
      fetch_orders_safely_from fetch fuel attempt = Ok (book, slept) /\
      match book with
      | Book ob =>
          exists k, (attempt <= k < 5)%nat /\ fetch k = Ok ob /\
                    slept = (5 * (k - attempt))%nat /\
                    forall j, (attempt <= j < k)%nat -> fails j
      | NoBook =>
          slept = (5 * (5 - attempt))%nat /\
          forall j, (attempt <= j < 5)%nat -> fails j
      end.
Proof.
  assert (Hstop : forall attempt,
            (attempt <? 5)%nat = false ->
            exists book slept,
              Ok (NoBook, 0%nat) = Ok (book, slept) /\
              match book with
              | Book ob =>
                  exists k, (attempt <= k < 5)%nat /\ fetch k = Ok ob /\
                            slept = (5 * (k - attempt))%nat /\
                            forall j, (attempt <= j < k)%nat -> fails j
              | NoBook =>
                  slept = (5 * (5 - attempt))%nat /\
                  forall j, (attempt <= j < 5)%nat -> fails j
              end).
  { intros attempt L. apply Nat.ltb_ge in L. exists NoBook, 0%nat.
    split; [reflexivity|]. split; [lia|]. intros j Hj. lia. }
  induction fuel as [|fuel IH]; intros attempt Hfuel;
    cbn [fetch_orders_safely_from];
    destruct (attempt <? 5)%nat eqn:L; try (apply Hstop; exact L);
    apply Nat.ltb_lt in L; [lia|].
  destruct (fetch attempt) as [ob|e|] eqn:E.
  { exists (Book ob), 0%nat. split; [reflexivity|].
    exists attempt. split; [lia|]. split; [exact E|]. split; [lia|].
    intros j Hj. lia. }
  all: destruct (IH (attempt + 1)%nat ltac:(lia))
    as (book & slept & Hrec & Hbook);
    rewrite Hrec; cbn [bind];
    exists book, (5 + slept)%nat; (split; [reflexivity|]);
    assert (Hfail : fails attempt)
      by (intros ob' Hob; congruence);
    destruct book as [ob|];
    [ destruct Hbook as (k & Hk & Hok & Hs & Hj);
      exists k; split; [lia|]; split; [exact Hok|]; split; [lia|];
      intros j Hj'; destruct (Nat.eq_dec j attempt) as [->|N];
      [exact Hfail | apply Hj; lia]
    | destruct Hbook as (Hs & Hj); split; [lia|];
      intros j Hj'; destruct (Nat.eq_dec j attempt) as [->|N];
      [exact Hfail | apply Hj; lia] ].
Qed.

(** X22. [fetch_orders_safely], started at attempt 0 as [get_orderbook]
    starts it, makes at most five requests: it returns the book of the
    first request that succeeds, after sleeping 5 seconds for each failed
    one before it, and returns the empty stand-in, after 25 seconds, exactly
    when all five requests fail. *)
Theorem fetch_orders_safely_tries_five_times :
  exists book slept,
    fetch_orders_safely fetch 0 = Ok (book, slept) /\
    (slept <= 25)%nat /\
    match book with
    | Book ob =>
        exists k, (k < 5)%nat /\ fetch k = Ok ob /\
                  slept = (5 * k)%nat /\
                  forall j, (j < k)%nat -> fails j
    | NoBook => slept = 25%nat /\ forall j, (j < 5)%nat -> fails j
    end.
Proof.
  destruct (fetch_orders_safely_from_tries 5 0 ltac:(lia))
    as (book & slept & H & Hbook).
  exists book, slept. split; [exact H|].
  destruct book as [ob|].
  - destruct Hbook as (k & Hk & Hok & Hs & Hj).
    split; [lia|]. exists k. split; [lia|]. split; [exact Hok|].
    split; [lia|]. intros j Hj'. apply Hj. lia.
  - destruct Hbook as (Hs & Hj). split; [lia|]. split; [lia|].
    intros j Hj'. apply Hj. lia.
Qed.
End Retries.

End AggregatorSpec.
